(** * go-kamailio: the BINRPC record codec of [binrpc/record.go]

    A shallow embedding of [Record], its strict accessors, [Record.Scan] and
    [Record.Encode], with the statements of the specification about them.

    Conventions.
    - Go's [int] is the 64-bit two's-complement integer; it is carried as a
      [Z] and every conversion writes its wrap-around out.
    - A byte ([byte], [uint8]) is a [Z] in [0, 256).
    - Go's [float64] is the primitive binary64 float.
    - A Go [string] is a sequence of bytes: [String.string], one [ascii] per
      byte.
    - A call either returns or panics ([completion]); a Go result list such
      as [(string, error)] is a pair whose error component is an
      [option error], [None] being Go's [nil]. *)

From Stdlib Require Import ZArith List String Ascii Bool Lia.
From Stdlib Require Import PrimFloat FloatOps SpecFloat DecimalString DecimalPos.
Import ListNotations.

Local Open Scope Z_scope.

(* ================================================================== *)
(** ** Machine integers and bytes *)

Module Mach.

Definition uint8 (z : Z) : Z := z mod 2 ^ 8.
Definition uint64 (z : Z) : Z := z mod 2 ^ 64.

Definition int_min : Z := - 2 ^ 63.
Definition int_max : Z := 2 ^ 63 - 1.

(** Reinterpretation of a 64-bit pattern as Go's signed [int]. *)
Definition int_of_uint64 (u : Z) : Z :=
  let m := uint64 u in if m <? 2 ^ 63 then m else m - 2 ^ 64.

Definition is_int (z : Z) : Prop := int_min <= z <= int_max.
Definition is_intb (z : Z) : bool := (int_min <=? z) && (z <=? int_max).

Definition is_byte (b : Z) : Prop := 0 <= b < 256.

(** [len] of a slice or of a string, as Go's [int]. *)
Definition len {A : Type} (l : list A) : Z := Z.of_nat (List.length l).

End Mach.
Import Mach.

(* ================================================================== *)
(** ** Strings as byte sequences *)

Definition charByte (c : ascii) : Z := Z.of_N (N_of_ascii c).
Definition byteChar (b : Z) : ascii := ascii_of_N (Z.to_N b).

Definition bytes_of_string (s : string) : list Z :=
  List.map charByte (list_ascii_of_string s).
Definition string_of_bytes (bs : list Z) : string :=
  string_of_list_ascii (List.map byteChar bs).

(* ================================================================== *)
(** ** Type tags *)

(** The type-tag constants are declared outside record.go.  The spec places
    the tag in bits 0-3 of the header byte and names the closed set
    {Integer, String, Double, Struct}; the values are those of the BINRPC
    wire protocol. *)

(** Modelled from the spec: the constant [TypeInt], declared outside
    record.go.  The Integer 0 record is the single header byte 0x00, so the
    Integer tag is 0. *)
Definition TypeInt : Z := 0.

(** Modelled from the spec: the constant [TypeString], declared outside
    record.go; the tag of Text records. *)
Definition TypeString : Z := 1.

(** Modelled from the spec: the constant [TypeDouble], declared outside
    record.go; the tag of Fixed records. *)
Definition TypeDouble : Z := 2.

(** Modelled from the spec: the constant [TypeStruct], declared outside
    record.go; the tag of Struct records. *)
Definition TypeStruct : Z := 3.

(* ================================================================== *)
(** ** Data model *)

(** [Record], the dynamically typed [Value any] it carries and [StructItem].
    [any] lists the dynamic types the code asserts on; [VOther] stands for a
    value of any further Go type, [nil] included.  The field [Type] is
    spelled [Typ]. *)
Inductive Record : Type :=
  mkRecord (size : Z) (Typ : Z) (Value : any)
with any : Type :=
  | VString (s : string)
  | VInt (n : Z)
  | VFloat64 (f : float)
  | VStructItems (items : list StructItem)
  | VOther
with StructItem : Type :=
  mkStructItem (Key : string) (ItemValue : Record).

Definition size (r : Record) : Z := let 'mkRecord s _ _ := r in s.
Definition Typ (r : Record) : Z := let 'mkRecord _ t _ := r in t.
Definition Value (r : Record) : any := let 'mkRecord _ _ v := r in v.

Definition Key (i : StructItem) : string := let 'mkStructItem k _ := i in k.
Definition ItemValue (i : StructItem) : Record :=
  let 'mkStructItem _ v := i in v.

(** The invariant of the data model: the dynamic type of [Value] is the one
    the tag announces.  A tag outside the four known ones constrains
    nothing. *)
Definition well_typed (r : Record) : Prop :=
  if Typ r =? TypeString then exists s, Value r = VString s
  else if Typ r =? TypeInt then exists n, Value r = VInt n
  else if Typ r =? TypeDouble then exists f, Value r = VFloat64 f
  else if Typ r =? TypeStruct then exists l, Value r = VStructItems l
  else True.

(* ================================================================== *)
(** ** Errors and completions *)

Inductive num_error_kind : Type := ErrSyntax | ErrRange.

(** One constructor per error the code builds or passes on; the comment
    gives the Go message or value. *)
Inductive error : Type :=
  (* "type error: expected type <name> (<want>), got <got>" *)
  | ErrAccessor (name : string) (want got : Z)
  (* "type error: cannot convert type <got> to <target>" *)
  | ErrConvert (got : Z) (target : string)
  (* "invalid dest type" *)
  | ErrInvalidDest
  (* "type error: expected type <name>" *)
  | ErrExpected (name : string)
  (* "type error: type <got> not implemented" *)
  | ErrNotImplemented (got : Z)
  (* strconv.NumError{Func, Num, Err} *)
  | NumError (func num : string) (kind : num_error_kind)
  (* io.ErrShortWrite *)
  | ErrShortWrite
  (* whatever a writer reports *)
  | ErrIO (msg : string).

Inductive completion (A : Type) : Type :=
  | Returns (a : A)
  | Panics (msg : string).
Arguments Returns {A} a.
Arguments Panics {A} msg.

(** A call that returned a non-nil error. *)
Definition fails {A : Type} (c : completion (A * option error)) : Prop :=
  exists a e, c = Returns (a, Some e).

(* ================================================================== *)
(** ** [intToBytesBE] *)

(** Modelled from the spec: part of [intToBytesBE], declared outside
    record.go.  The [n] low-order bytes of [u], most significant first. *)
Fixpoint bigEndianBytes (n : nat) (u : Z) : list Z :=
  match n with
  | O => []
  | S k => Z.land (Z.shiftr u (8 * Z.of_nat k)) 255 :: bigEndianBytes k u
  end.

(** Modelled from the spec: part of [intToBytesBE], declared outside
    record.go.  "No leading all-zero byte". *)
Fixpoint trimLeadingZeros (bs : list Z) : list Z :=
  match bs with
  | [] => []
  | b :: rest => if b =? 0 then trimLeadingZeros rest else bs
  end.

(** Modelled from the spec: the helper [intToBytesBE] is called by
    [Record.Encode] and declared outside record.go.  The spec gives the
    "minimal big-endian two's-complement byte sequence with no leading
    all-zero byte; the value 0 serializes to a zero-length payload": the
    eight bytes of the 64-bit two's-complement pattern with the leading
    zero bytes dropped. *)
Definition intToBytesBE (v : Z) : list Z :=
  trimLeadingZeros (bigEndianBytes 8 (uint64 v)).

(** Modelled from the spec: part of the decoder, declared outside
    record.go.  The unsigned value of a big-endian byte sequence. *)
Definition bigEndianValue (bs : list Z) : Z :=
  List.fold_left (fun acc b => acc * 256 + b) bs 0.

(** [bs] is the shortest big-endian byte sequence of value [n]. *)
Definition minimalBigEndian (bs : list Z) (n : Z) : Prop :=
  Forall is_byte bs /\ bigEndianValue bs = n /\ hd 1 bs <> 0.

(* ================================================================== *)
(** ** [float64] conversions *)

(** The integer part of a finite float, rounding toward zero; [None] for
    NaN and the infinities. *)
Definition float64_trunc (f : float) : option Z :=
  match Prim2SF f with
  | S754_zero _ => Some 0
  | S754_finite s m e =>
      let mag := if 0 <=? e then Z.shiftl (Z.pos m) e
                 else Z.shiftr (Z.pos m) (- e) in
      Some (if s then - mag else mag)
  | S754_infinity _ => None
  | S754_nan => None
  end.

(** Go's conversion [int(f)].  The language leaves the result open when the
    truncated value does not fit; amd64 yields the pattern
    0x8000000000000000, which is what this model returns there. *)
Definition int_of_float64 (f : float) : Z :=
  match float64_trunc f with
  | Some t => if is_intb t then t else int_min
  | None => int_min
  end.

(** Go's conversion [float64(n)]: the nearest binary64, ties to even. *)
Definition float64_of_int (n : Z) : float :=
  SF2Prim (binary_normalize prec emax n 0 false).

(** The binary64 nearest to 1.23456. *)
Definition sampleFixed : float := 0x1.3c0c1fc8f3238p+0%float.

(* ================================================================== *)
(** ** [io.Writer] and [bytes.Buffer] *)

(** [Write w p] gives the new state of the writer, the count of bytes it
    took and its error. *)
Class Writer (W : Type) : Type :=
  Write : W -> list Z -> W * (Z * option error).

(** A [bytes.Buffer] used as the writer: it appends and never fails. *)
#[export] Instance BufferWriter : Writer (list Z) :=
  fun w p => (w ++ p, (len p, None)).

(** A writer that keeps the argument of every [Write] it receives. *)
#[export] Instance CallLog : Writer (list (list Z)) :=
  fun w p => (w ++ [p], (len p, None)).

(** [bytes.Buffer.WriteTo]: one [Write] of the whole content when there is
    any, a panic on an impossible count, [io.ErrShortWrite] on a short
    count without error. *)
Definition Buffer_WriteTo {W : Type} `{Writer W} (buf : list Z) (w : W)
  : W * completion (Z * option error) :=
  let nBytes := len buf in
  if 0 <? nBytes then
    let '(w', (m, e)) := Write w buf in
    if nBytes <? m then
      (w', Panics "bytes.Buffer.WriteTo: invalid Write count")
    else
      match e with
      | Some err => (w', Returns (m, Some err))
      | None =>
          if negb (m =? nBytes) then (w', Returns (m, Some ErrShortWrite))
          else (w', Returns (m, None))
      end
  else (w, Returns (0, None)).

(* ================================================================== *)
(** ** [Record.Encode] *)

(** record.go, lines 166-183: what [buffer] holds for a payload [value],
    the header byte, the length bytes of the extended form and the
    payload. *)
Definition frameBytes (ty : Z) (value : list Z) : list Z :=
  let sizeOfValue := len value in
  if sizeOfValue <? 8 then
    let header := Z.lor (uint8 (Z.shiftl sizeOfValue 4)) ty in
    [header] ++ value
  else
    let sizeBytes := intToBytesBE sizeOfValue in
    let header :=
      Z.lor (Z.lor (Z.shiftl 1 7) (uint8 (Z.shiftl (len sizeBytes) 4))) ty in
    [header] ++ sizeBytes ++ value.

(** record.go, lines 166-189: [buffer] is filled and written to [w]. *)
Definition writeFramed {W : Type} `{Writer W} (ty : Z) (value : list Z) (w : W)
  : W * completion (option error) :=
  match Buffer_WriteTo (frameBytes ty value) w with
  | (w', Returns (_, Some err)) => (w', Returns (Some err))
  | (w', Returns (_, None)) => (w', Returns None)
  | (w', Panics msg) => (w', Panics msg)
  end.

(** record.go, lines 126-190. *)
Definition Encode {W : Type} `{Writer W} (record : Record) (w : W)
  : W * completion (option error) :=
  if Typ record =? TypeInt then
    match Value record with
    | VInt v =>
        (* shortcut! *)
        if v =? 0 then
          let '(w', (_, err)) := Write w [0] in (w', Returns err)
        else writeFramed (Typ record) (intToBytesBE v) w
    | _ => (w, Returns (Some (ErrExpected "int")))
    end
  else if Typ record =? TypeString then
    match Value record with
    | VString s => writeFramed (Typ record) (bytes_of_string s ++ [0]) w
    | _ => (w, Returns (Some (ErrExpected "string")))
    end
  else if Typ record =? TypeDouble then
    match Value record with
    | VFloat64 v =>
        writeFramed (Typ record)
          (intToBytesBE (int_of_float64 (v * 1000)%float)) w
    | _ => (w, Returns (Some (ErrExpected "float64")))
    end
  else (w, Returns (Some (ErrNotImplemented (Typ record)))).

(** The general algorithm of the spec, first half: the payload of a record
    by type, with no case set apart. *)
Definition payloadBytes (record : Record) : error + list Z :=
  if Typ record =? TypeInt then
    match Value record with
    | VInt v => inr (intToBytesBE v)
    | _ => inl (ErrExpected "int")
    end
  else if Typ record =? TypeString then
    match Value record with
    | VString s => inr (bytes_of_string s ++ [0])
    | _ => inl (ErrExpected "string")
    end
  else if Typ record =? TypeDouble then
    match Value record with
    | VFloat64 v => inr (intToBytesBE (int_of_float64 (v * 1000)%float))
    | _ => inl (ErrExpected "float64")
    end
  else inl (ErrNotImplemented (Typ record)).

(** The general algorithm of the spec: the payload, then header, length
    bytes and payload written out. *)
Definition EncodeGeneral {W : Type} `{Writer W} (record : Record) (w : W)
  : W * completion (option error) :=
  match payloadBytes record with
  | inl err => (w, Returns (Some err))
  | inr value => writeFramed (Typ record) value w
  end.

(** [Encode] into an empty [bytes.Buffer]: the bytes it leaves there and
    its completion. *)
Definition EncodeBytes (record : Record)
  : list Z * completion (option error) :=
  Encode record ([] : list Z).

(* ================================================================== *)
(** ** The library functions [Scan] calls *)

Module strconv.

Definition maxUint64 : Z := 2 ^ 64 - 1.

Definition digit (c : ascii) : option Z :=
  let b := charByte c in
  if (48 <=? b) && (b <=? 57) then Some (b - 48) else None.

(** The digit loop of [ParseUint(s, 10, 64)]: a character that is no
    decimal digit is a syntax error, an accumulator that leaves uint64 a
    range error, whichever the scan meets first. *)
Fixpoint parseDigits (cs : list ascii) (n : Z) : Z * option num_error_kind :=
  match cs with
  | [] => (n, None)
  | c :: rest =>
      match digit c with
      | None => (0, Some ErrSyntax)
      | Some d =>
          if maxUint64 <? n * 10 + d then (maxUint64, Some ErrRange)
          else parseDigits rest (n * 10 + d)
      end
  end.

Definition ParseUint (cs : list ascii) : Z * option num_error_kind :=
  match cs with
  | [] => (0, Some ErrSyntax)
  | _ => parseDigits cs 0
  end.

(** [ParseInt(s, 10, 0)]. *)
Definition ParseInt (s : string) : Z * option num_error_kind :=
  match list_ascii_of_string s with
  | [] => (0, Some ErrSyntax)
  | c :: rest =>
      let neg := charByte c =? 45 in
      let body := if (charByte c =? 43) || neg then rest else c :: rest in
      match ParseUint body with
      | (_, Some ErrSyntax) => (0, Some ErrSyntax)
      | (un, _) =>
          let cutoff := 2 ^ 63 in
          if negb neg && (cutoff <=? un) then (cutoff - 1, Some ErrRange)
          else if neg && (cutoff <? un) then (- cutoff, Some ErrRange)
          else (if neg then - un else un, None)
      end
  end.

(** [Atoi]: [ParseInt(s, 10, 0)] with the error renamed; its fast path for
    short strings returns the same results. *)
Definition Atoi (s : string) : Z * option error :=
  match ParseInt s with
  | (n, None) => (n, None)
  | (n, Some kind) => (n, Some (NumError "Atoi" s kind))
  end.

(** [Itoa]: the decimal digits, a minus sign in front of a negative. *)
Definition Itoa (i : Z) : string := NilZero.string_of_int (Z.to_int i).

(** A [ParseFloat] that accepts no string, to run [Scan] where no float is
    parsed. *)
Definition rejectFloat (s : string) : float * option error :=
  (0%float, Some (NumError "ParseFloat" s ErrSyntax)).

End strconv.

Module fmt.

Definition digitChar (d : Z) : ascii := byteChar (48 + d).

(** The value [m * 2^e * 1000] rounded to the nearest integer, ties to
    even. *)
Definition roundedThousandths (m : positive) (e : Z) : Z :=
  if 0 <=? e then Z.shiftl (Z.pos m * 1000) e
  else
    let den := 2 ^ (- e) in
    let q := (Z.pos m * 1000) / den in
    let r := (Z.pos m * 1000) mod den in
    if (den <? 2 * r) || ((den =? 2 * r) && Z.odd q) then q + 1 else q.

Definition threeDecimals (q : Z) : string :=
  (strconv.Itoa (q / 1000) ++ "." ++
   String.String (digitChar (q mod 1000 / 100))
     (String.String (digitChar (q mod 100 / 10))
        (String.String (digitChar (q mod 10)) EmptyString)))%string.

(** [Sprintf("%.3f", f)]: the exact value of [f] correctly rounded to three
    decimals. *)
Definition Sprintf_3f (f : float) : string :=
  match Prim2SF f with
  | S754_nan => "NaN"
  | S754_infinity s => if s then "-Inf" else "+Inf"
  | S754_zero s => if s then "-0.000" else "0.000"
  | S754_finite s m e =>
      ((if s then "-" else "") ++ threeDecimals (roundedThousandths m e))%string
  end.

End fmt.

(* ================================================================== *)
(** ** Strict accessors *)

(** Each method maps the receiver to the receiver after the call and the
    completion of the call.  [String], [Int] and [Double] have value
    receivers and run on a copy; [StructItems] has a pointer receiver. *)
Module Accessors.

Definition badAssertion : string := "interface conversion".

(** record.go, lines 28-34. *)
Definition String (record : Record)
  : Record * completion (string * option error) :=
  if negb (Typ record =? TypeString) then
    (record,
     Returns (EmptyString, Some (ErrAccessor "string" TypeString (Typ record))))
  else
    match Value record with
    | VString s => (record, Returns (s, None))
    | _ => (record, Panics badAssertion)
    end.

(** record.go, lines 37-43. *)
Definition Int (record : Record)
  : Record * completion (Z * option error) :=
  if negb (Typ record =? TypeInt) then
    (record, Returns (0, Some (ErrAccessor "int" TypeInt (Typ record))))
  else
    match Value record with
    | VInt n => (record, Returns (n, None))
    | _ => (record, Panics badAssertion)
    end.

(** record.go, lines 46-52. *)
Definition Double (record : Record)
  : Record * completion (float * option error) :=
  if negb (Typ record =? TypeDouble) then
    (record,
     Returns (0%float, Some (ErrAccessor "double" TypeDouble (Typ record))))
  else
    match Value record with
    | VFloat64 f => (record, Returns (f, None))
    | _ => (record, Panics badAssertion)
    end.

(** record.go, lines 55-61; the [nil] slice is the empty list. *)
Definition StructItems (record : Record)
  : Record * completion (list StructItem * option error) :=
  if negb (Typ record =? TypeStruct) then
    (record,
     Returns ([], Some (ErrAccessor "struct" TypeStruct (Typ record))))
  else
    match Value record with
    | VStructItems items => (record, Returns (items, None))
    | _ => (record, Panics badAssertion)
    end.

End Accessors.

(* ================================================================== *)
(** ** [Record.Scan] *)

(** What [dest any] holds: a pointer of one of the four kinds [Scan]
    switches on, given with the value its pointee holds, or anything else.
    The pointer is not nil and its pointee is a variable of the caller,
    apart from the record: the one field of a record that such a pointer
    could address, [size], is not exported.  Typed nil pointers are the
    further arguments of [DestArg], which [ScanArg] takes. *)
Inductive Dest : Type :=
  | PtrString (pointee : string)
  | PtrInt (pointee : Z)
  | PtrFloat64 (pointee : float)
  | PtrStructItems (pointee : list StructItem)
  | OtherDest.

Definition assertionPanic {S : Type} (st : S)
  : S * completion (option error) :=
  (st, Panics Accessors.badAssertion).

Section Scan.

(** [strconv.ParseFloat(s, 64)], the one library function taken as given:
    its value and its error. *)
Variable ParseFloat64 : string -> float * option error.

(** record.go, lines 64-123.  The state is the record behind the receiver
    and the pointee of [dest]; a failed type assertion panics before the
    assignment it feeds. *)
Definition Scan (record : Record) (dest : Dest)
  : (Record * Dest) * completion (option error) :=
  match dest with
  | PtrString _ =>
      if Typ record =? TypeString then
        match Value record with
        | VString v => ((record, PtrString v), Returns None)
        | _ => assertionPanic (record, dest)
        end
      else if Typ record =? TypeInt then
        match Value record with
        | VInt v => ((record, PtrString (strconv.Itoa v)), Returns None)
        | _ => assertionPanic (record, dest)
        end
      else if Typ record =? TypeDouble then
        match Value record with
        | VFloat64 v => ((record, PtrString (fmt.Sprintf_3f v)), Returns None)
        | _ => assertionPanic (record, dest)
        end
      else
        ((record, dest), Returns (Some (ErrConvert (Typ record) "string")))
  | PtrInt _ =>
      if Typ record =? TypeString then
        match Value record with
        | VString v =>
            match strconv.Atoi v with
            | (n, None) => ((record, PtrInt n), Returns None)
            | (_, Some err) => ((record, dest), Returns (Some err))
            end
        | _ => assertionPanic (record, dest)
        end
      else if Typ record =? TypeInt then
        match Value record with
        | VInt v => ((record, PtrInt v), Returns None)
        | _ => assertionPanic (record, dest)
        end
      else
        ((record, dest), Returns (Some (ErrConvert (Typ record) "int")))
  | PtrFloat64 _ =>
      if Typ record =? TypeString then
        match Value record with
        | VString v =>
            match ParseFloat64 v with
            | (value, None) => ((record, PtrFloat64 value), Returns None)
            | (_, Some err) => ((record, dest), Returns (Some err))
            end
        | _ => assertionPanic (record, dest)
        end
      else if Typ record =? TypeInt then
        match Value record with
        | VInt v => ((record, PtrFloat64 (float64_of_int v)), Returns None)
        | _ => assertionPanic (record, dest)
        end
      else if Typ record =? TypeDouble then
        match Value record with
        | VFloat64 v => ((record, PtrFloat64 v), Returns None)
        | _ => assertionPanic (record, dest)
        end
      else
        ((record, dest), Returns (Some (ErrConvert (Typ record) "double")))
  | PtrStructItems _ =>
      if negb (Typ record =? TypeStruct) then
        ((record, dest),
         Returns (Some (ErrConvert (Typ record) "[]StructItem")))
      else
        match Value record with
        | VStructItems v => ((record, PtrStructItems v), Returns None)
        | _ => assertionPanic (record, dest)
        end
  | OtherDest => ((record, dest), Returns (Some ErrInvalidDest))
  end.

(** *** The conversion layer in the words of the spec *)

Definition knownTag (ty : Z) : bool :=
  (ty =? TypeInt) || (ty =? TypeString) || (ty =? TypeDouble)
  || (ty =? TypeStruct).

Definition targetName (dest : Dest) : string :=
  match dest with
  | PtrString _ => "string"
  | PtrInt _ => "int"
  | PtrFloat64 _ => "double"
  | PtrStructItems _ => "[]StructItem"
  | OtherDest => ""
  end.

(** The conversions the spec lists, by the variant the record holds and the
    kind of the target: the pointee after a conversion, the error of a
    failed parse, or nothing where no conversion exists. *)
Definition conversionTable (v : any) (dest : Dest) : option (Dest + error) :=
  match v, dest with
  | VString s, PtrString _ => Some (inl (PtrString s))
  | VInt n, PtrString _ => Some (inl (PtrString (strconv.Itoa n)))
  | VFloat64 f, PtrString _ => Some (inl (PtrString (fmt.Sprintf_3f f)))
  | VString s, PtrInt _ =>
      match strconv.Atoi s with
      | (n, None) => Some (inl (PtrInt n))
      | (_, Some err) => Some (inr err)
      end
  | VInt n, PtrInt _ => Some (inl (PtrInt n))
  | VString s, PtrFloat64 _ =>
      match ParseFloat64 s with
      | (x, None) => Some (inl (PtrFloat64 x))
      | (_, Some err) => Some (inr err)
      end
  | VInt n, PtrFloat64 _ => Some (inl (PtrFloat64 (float64_of_int n)))
  | VFloat64 f, PtrFloat64 _ => Some (inl (PtrFloat64 f))
  | VStructItems l, PtrStructItems _ => Some (inl (PtrStructItems l))
  | _, _ => None
  end.

(** The failure of a request for which no conversion exists. *)
Definition conversionFailure (ty : Z) (dest : Dest) : error :=
  match dest with
  | OtherDest => ErrInvalidDest
  | _ => ErrConvert ty (targetName dest)
  end.

End Scan.

(* ================================================================== *)
(** ** The decoder *)

Inductive decode_error : Type :=
  | UnsupportedType (tag : Z)
  | MalformedRecord.

(** Modelled from the spec: part of the decoder, declared outside
    record.go.  The next [n] bytes and what follows them, when there are
    that many. *)
Definition readBytes (n : Z) (bs : list Z) : option (list Z * list Z) :=
  if (0 <=? n) && (n <=? len bs)
  then Some (firstn (Z.to_nat n) bs, skipn (Z.to_nat n) bs)
  else None.

(** Modelled from the spec: part of the decoder, declared outside
    record.go.  "Strip exactly one trailing 0x00 terminator from the
    payload"; a payload that does not end in 0x00 is malformed. *)
Definition stripTerminator (payload : list Z) : option (list Z) :=
  match rev payload with
  | b :: front => if b =? 0 then Some (rev front) else None
  | [] => None
  end.

(** Modelled from the spec: the decoder is declared outside record.go.
    Steps 1 to 3 and 5 of "Decode(bytes, offset) -> (record,
    bytesConsumed)", on the bytes from the offset on: the header byte gives
    the extended flag (bit 7), the size field (bits 4-6) and the type tag
    (bits 0-3); the length L is the size field, or the big-endian value of
    the next size-field bytes when the flag is set; the next L bytes are the
    payload; a length that exceeds the bytes left is malformed.  The result
    is the tag, L, the payload and the count of bytes consumed. *)
Definition readFrame (bs : list Z) : option (Z * Z * list Z * Z) :=
  match bs with
  | [] => None
  | header :: rest =>
      let extended := Z.testbit header 7 in
      let sizeField := Z.land (Z.shiftr header 4) 7 in
      let tag := Z.land header 15 in
      let lengthAndRest :=
        if extended then
          match readBytes sizeField rest with
          | Some (lenBytes, rest') => Some (bigEndianValue lenBytes, rest')
          | None => None
          end
        else Some (sizeField, rest) in
      match lengthAndRest with
      | None => None
      | Some (L, rest') =>
          match readBytes L rest' with
          | None => None
          | Some (payload, _) =>
              Some (tag, L, payload,
                    1 + (if extended then sizeField else 0) + L)
          end
      end
  end.

(** Modelled from the spec: step 4 of the decoder, declared outside
    record.go.  Integer is the big-endian value of the payload as an [int]
    (the empty payload is 0), Text is the payload without its one
    terminating 0x00, Fixed is the big-endian integer divided by 1000.0,
    Struct is a run of pairs of a Text key and a value that fills the
    payload exactly; any other tag is [UnsupportedType].  The record keeps
    L in [size]. *)
Fixpoint Decode (fuel : nat) (bs : list Z) {struct fuel}
  : decode_error + (Record * Z) :=
  match fuel with
  | O => inl MalformedRecord
  | S fuel' =>
      match readFrame bs with
      | None => inl MalformedRecord
      | Some (tag, L, payload, consumed) =>
          if tag =? TypeInt then
            inr (mkRecord L tag
                   (VInt (int_of_uint64 (bigEndianValue payload))),
                 consumed)
          else if tag =? TypeString then
            match stripTerminator payload with
            | Some text =>
                inr (mkRecord L tag (VString (string_of_bytes text)),
                     consumed)
            | None => inl MalformedRecord
            end
          else if tag =? TypeDouble then
            inr (mkRecord L tag
                   (VFloat64
                      (float64_of_int
                         (int_of_uint64 (bigEndianValue payload))
                       / 1000)%float),
                 consumed)
          else if tag =? TypeStruct then
            match decodePairs fuel' payload with
            | inr items =>
                inr (mkRecord L tag (VStructItems items), consumed)
            | inl e => inl e
            end
          else inl (UnsupportedType tag)
      end
  end
with decodePairs (fuel : nat) (bs : list Z) {struct fuel}
  : decode_error + list StructItem :=
  match fuel with
  | O => inl MalformedRecord
  | S fuel' =>
      match bs with
      | [] => inr []
      | _ =>
          match Decode fuel' bs with
          | inl e => inl e
          | inr (key, n) =>
              match Value key with
              | VString k =>
                  match Decode fuel' (skipn (Z.to_nat n) bs) with
                  | inl e => inl e
                  | inr (value, m) =>
                      match
                        decodePairs fuel' (skipn (Z.to_nat (n + m)) bs)
                      with
                      | inl e => inl e
                      | inr items => inr (mkStructItem k value :: items)
                      end
                  end
              | _ => inl MalformedRecord
              end
          end
      end
  end.

(** Modelled from the spec: the decoder, declared outside record.go, on a
    whole input.  A record costs one unit of fuel and a pair of a struct
    one more, so two units per byte are enough. *)
Definition DecodeRecord (bs : list Z) : decode_error + (Record * Z) :=
  Decode (2 * List.length bs + 2) bs.

(* ================================================================== *)
(** ** Dynamic types, writers that fail, and the example of the README *)

(** The tag whose type assertion the dynamic type of a value passes. *)
Definition dynamicTag (v : any) : option Z :=
  match v with
  | VString _ => Some TypeString
  | VInt _ => Some TypeInt
  | VFloat64 _ => Some TypeDouble
  | VStructItems _ => Some TypeStruct
  | VOther => None
  end.

(** The cases of the inner switches of [Scan], record.go lines 69-117: the
    tags for which a target kind has a branch that asserts on [Value]. *)
Definition converts (dest : Dest) (ty : Z) : bool :=
  match dest with
  | PtrString _ => (ty =? TypeString) || (ty =? TypeInt) || (ty =? TypeDouble)
  | PtrInt _ => (ty =? TypeString) || (ty =? TypeInt)
  | PtrFloat64 _ => (ty =? TypeString) || (ty =? TypeInt) || (ty =? TypeDouble)
  | PtrStructItems _ => ty =? TypeStruct
  | OtherDest => false
  end.

(** The records that take the shortcut of [Encode], record.go lines
    138-142: tag [TypeInt] and an [int] that is 0. *)
Definition takesShortcut (record : Record) : bool :=
  (Typ record =? TypeInt)
  && match Value record with
     | VInt v => v =? 0
     | _ => false
     end.

(** A writer that is closed: it takes nothing and says so. *)
Inductive ClosedPipe : Type := closedPipe.

#[export] Instance ClosedWriter : Writer ClosedPipe :=
  fun w p => (w, (0, Some (ErrIO "closed pipe"))).

(** A writer that breaks the contract of [io.Writer]: it takes nothing and
    reports no error. *)
Inductive Stalled : Type := stalled.

#[export] Instance StalledWriter : Writer Stalled :=
  fun w p => (w, (0, None)).

Definition newline : string := String.String (ascii_of_nat 10) EmptyString.

(** README.md, lines 62-69: the loop of the example over the items of the
    reply.  The error of [Int] is dropped, [value] is then 0;
    [fmt.Printf("%s = %d\n", item.Key, value)] adds one line to what
    standard output holds. *)
Fixpoint printItems (items : list StructItem) (stdout : string)
  : string * completion unit :=
  match items with
  | [] => (stdout, Returns tt)
  | item :: rest =>
      match snd (Accessors.Int (ItemValue item)) with
      | Returns (value, _) =>
          printItems rest
            (stdout ++ Key item ++ " = " ++ strconv.Itoa value ++ newline)%string
      | Panics msg => (stdout, Panics msg)
      end
  end.

(** README.md, lines 60-69: [records[0].StructItems()] with its error
    dropped, then the loop.  Indexing an empty reply panics. *)
Definition printStats (records : list Record) (stdout : string)
  : string * completion unit :=
  match records with
  | [] => (stdout, Panics "index out of range")
  | first :: _ =>
      match snd (Accessors.StructItems first) with
      | Returns (items, _) => printItems items stdout
      | Panics msg => (stdout, Panics msg)
      end
  end.

(** What the example prints for one item: the key, and the value when the
    item holds an Integer, 0 otherwise. *)
Definition statLine (item : StructItem) : string :=
  (Key item ++ " = "
   ++ strconv.Itoa
        (if (Typ (ItemValue item) =? TypeInt)%Z then
           match Value (ItemValue item) with
           | VInt n => n
           | _ => 0
           end
         else 0)
   ++ newline)%string.

(** A Fixed value whose thousandfold is beyond the range of [int]. *)
Definition hugeFixed : float := 12345678901234568%float.

(** A writer that breaks the contract of [io.Writer] the other way: it
    claims one byte more than it was given, and reports an error. *)
Inductive Overcount : Type := overcount.

#[export] Instance OvercountWriter : Writer Overcount :=
  fun w p => (w, (len p + 1, Some (ErrIO "overcount"))).

(** *** [Scan] on every argument, typed nil pointers included *)

Inductive PtrKind : Type := KString | KInt | KFloat64 | KStructItems.

(** What [dest any] holds, in full: a [Dest], or a nil pointer of one of
    the four types the type switch of [Scan] names. *)
Inductive DestArg : Type :=
  | Valid (dest : Dest)
  | NilPointer (kind : PtrKind).

Definition nilDereference : string :=
  "invalid memory address or nil pointer dereference".

(** record.go, lines 64-123, for a nil pointer: the type switch takes the
    case of the pointer type, the inner switch and the right-hand sides
    run as for any pointer, and each store through the pointer panics.  A
    failed type assertion panics first; a failed parse returns its error
    before any store. *)
Definition ScanNil (ParseFloat64 : string -> float * option error)
  (record : Record) (kind : PtrKind) : completion (option error) :=
  match kind with
  | KString =>
      if Typ record =? TypeString then
        match Value record with
        | VString _ => Panics nilDereference
        | _ => Panics Accessors.badAssertion
        end
      else if Typ record =? TypeInt then
        match Value record with
        | VInt _ => Panics nilDereference
        | _ => Panics Accessors.badAssertion
        end
      else if Typ record =? TypeDouble then
        match Value record with
        | VFloat64 _ => Panics nilDereference
        | _ => Panics Accessors.badAssertion
        end
      else Returns (Some (ErrConvert (Typ record) "string"))
  | KInt =>
      if Typ record =? TypeString then
        match Value record with
        | VString v =>
            match strconv.Atoi v with
            | (_, None) => Panics nilDereference
            | (_, Some err) => Returns (Some err)
            end
        | _ => Panics Accessors.badAssertion
        end
      else if Typ record =? TypeInt then
        match Value record with
        | VInt _ => Panics nilDereference
        | _ => Panics Accessors.badAssertion
        end
      else Returns (Some (ErrConvert (Typ record) "int"))
  | KFloat64 =>
      if Typ record =? TypeString then
        match Value record with
        | VString v =>
            match ParseFloat64 v with
            | (_, None) => Panics nilDereference
            | (_, Some err) => Returns (Some err)
            end
        | _ => Panics Accessors.badAssertion
        end
      else if Typ record =? TypeInt then
        match Value record with
        | VInt _ => Panics nilDereference
        | _ => Panics Accessors.badAssertion
        end
      else if Typ record =? TypeDouble then
        match Value record with
        | VFloat64 _ => Panics nilDereference
        | _ => Panics Accessors.badAssertion
        end
      else Returns (Some (ErrConvert (Typ record) "double"))
  | KStructItems =>
      if negb (Typ record =? TypeStruct) then
        Returns (Some (ErrConvert (Typ record) "[]StructItem"))
      else
        match Value record with
        | VStructItems _ => Panics nilDereference
        | _ => Panics Accessors.badAssertion
        end
  end.

(** record.go, lines 64-123, on every argument: [Scan] for a [Dest],
    [ScanNil] for a nil pointer, which has no pointee to change. *)
Definition ScanArg (ParseFloat64 : string -> float * option error)
  (record : Record) (arg : DestArg)
  : (Record * DestArg) * completion (option error) :=
  match arg with
  | Valid dest =>
      let '((record', dest'), outcome) := Scan ParseFloat64 record dest in
      ((record', Valid dest'), outcome)
  | NilPointer kind => ((record, arg), ScanNil ParseFloat64 record kind)
  end.

Definition isNil (arg : DestArg) : bool :=
  match arg with
  | Valid _ => false
  | NilPointer _ => true
  end.

(** A pointer of the given type to a zero value. *)
Definition zeroDest (kind : PtrKind) : Dest :=
  match kind with
  | KString => PtrString EmptyString
  | KInt => PtrInt 0
  | KFloat64 => PtrFloat64 0
  | KStructItems => PtrStructItems []
  end.

Definition argConverts (arg : DestArg) (ty : Z) : bool :=
  match arg with
  | Valid dest => converts dest ty
  | NilPointer kind => converts (zeroDest kind) ty
  end.

(** Whether the conversion for the argument is a parse of the string of a
    String record that reports an error. *)
Definition parseFails (ParseFloat64 : string -> float * option error)
  (record : Record) (arg : DestArg) : bool :=
  if Typ record =? TypeString then
    match Value record, arg with
    | VString v, Valid (PtrInt _) | VString v, NilPointer KInt =>
        match snd (strconv.Atoi v) with Some _ => true | None => false end
    | VString v, Valid (PtrFloat64 _) | VString v, NilPointer KFloat64 =>
        match snd (ParseFloat64 v) with Some _ => true | None => false end
    | _, _ => false
    end
  else false.

(** *** Decimal numerals *)

(** The value of a run of decimal digits after the accumulator [acc],
    without bound; [None] when a character is no digit. *)
Fixpoint digitsValue (cs : list ascii) (acc : Z) : option Z :=
  match cs with
  | [] => Some acc
  | c :: rest =>
      match strconv.digit c with
      | None => None
      | Some d => digitsValue rest (acc * 10 + d)
      end
  end.

(** The value of a decimal numeral: one optional sign, then one digit at
    least and digits only; [None] for any other string. *)
Definition decimalValue (s : string) : option Z :=
  match list_ascii_of_string s with
  | [] => None
  | c :: rest =>
      let neg := charByte c =? 45 in
      let body := if (charByte c =? 43) || neg then rest else c :: rest in
      match body with
      | [] => None
      | _ =>
          match digitsValue body 0 with
          | Some u => Some (if neg then - u else u)
          | None => None
          end
      end
  end.

(** The characters [Itoa] prints for the digits of a decimal numeral. *)
Definition digitChars (d : Decimal.uint) : list ascii :=
  list_ascii_of_string (NilEmpty.string_of_uint d).

(* ================================================================== *)
(** ** Proof steps used more than once *)

(** Case analysis on an integer known to lie in [lo, hi]. *)
Ltac enum z lo hi :=
  let rec go k n :=
    lazymatch n with
    | O => exfalso; lia
    | S ?n' =>
        let H := fresh "Hcase" in
        destruct (Z.eq_dec z k) as [H|H];
        [ subst z | go ltac:(eval cbv in (k + 1)) n' ]
    end in
  let n := eval cbv in (S (Z.to_nat (hi - lo))) in
  go lo n.

(** Runs through the branches of [Scan]. *)
Ltac scan_branches record PF :=
  repeat
    match goal with
    | |- context [if ?b then _ else _] => destruct b
    | |- context [match Value record with _ => _ end] =>
        destruct (Value record)
    | |- context [match strconv.Atoi ?s with _ => _ end] =>
        destruct (strconv.Atoi s) as [? [?|]]
    | |- context [match PF ?s with _ => _ end] =>
        destruct (PF s) as [? [?|]]
    end.

(** Splits on the tag of a record, known tags first. *)
Ltac tag_cases record :=
  destruct (Typ record =? TypeString) eqn:Hs;
  [|destruct (Typ record =? TypeInt) eqn:Hi;
    [|destruct (Typ record =? TypeDouble) eqn:Hd;
      [|destruct (Typ record =? TypeStruct) eqn:Hst]]].

(* ================================================================== *)
(** ** Big-endian bytes and their value *)

Lemma len_cons {A : Type} (x : A) (a : list A) : len (x :: a) = 1 + len a.
Proof. unfold len. cbn [List.length]. lia. Qed.

Lemma len_app {A : Type} (a b : list A) : len (a ++ b) = len a + len b.
Proof. unfold len. rewrite length_app. lia. Qed.

Lemma len_nonneg {A : Type} (a : list A) : 0 <= len a.
Proof. unfold len. lia. Qed.

Lemma fold_value_acc (bs : list Z) (acc : Z) :
  fold_left (fun a b => a * 256 + b) bs acc
  = acc * 256 ^ len bs + bigEndianValue bs.
Proof.
  unfold bigEndianValue, len. revert acc.
  induction bs as [|b bs IH]; intros acc.
  - simpl. lia.
  - cbn [fold_left List.length]. rewrite IH. rewrite (IH (0 * 256 + b)).
    rewrite Nat2Z.inj_succ, Z.pow_succ_r by lia. lia.
Qed.

Lemma bigEndianValue_cons (b : Z) (bs : list Z) :
  bigEndianValue (b :: bs) = b * 256 ^ len bs + bigEndianValue bs.
Proof.
  unfold bigEndianValue at 1. cbn [fold_left].
  rewrite fold_value_acc. lia.
Qed.

Lemma bigEndianValue_trim (bs : list Z) :
  bigEndianValue (trimLeadingZeros bs) = bigEndianValue bs.
Proof.
  induction bs as [|b bs IH]; [reflexivity|].
  cbn [trimLeadingZeros]. destruct (Z.eqb_spec b 0) as [->|Hb].
  - rewrite IH, bigEndianValue_cons. lia.
  - reflexivity.
Qed.

Lemma bigEndianBytes_length (n : nat) (u : Z) :
  List.length (bigEndianBytes n u) = n.
Proof. induction n; simpl; congruence. Qed.

Lemma bigEndianValue_bytes (n : nat) (u : Z) :
  bigEndianValue (bigEndianBytes n u) = u mod 2 ^ (8 * Z.of_nat n).
Proof.
  induction n as [|k IH].
  - simpl. now rewrite Z.mod_1_r.
  - cbn [bigEndianBytes]. rewrite bigEndianValue_cons, IH.
    unfold len. rewrite bigEndianBytes_length.
    change 255 with (Z.ones 8). rewrite Z.land_ones, Z.shiftr_div_pow2 by lia.
    replace (8 * Z.of_nat (S k)) with (8 * Z.of_nat k + 8) by lia.
    rewrite Z.pow_add_r by lia.
    replace (256 ^ Z.of_nat k) with (2 ^ (8 * Z.of_nat k))
      by (rewrite Z.pow_mul_r by lia; reflexivity).
    assert (Hp : 0 < 2 ^ (8 * Z.of_nat k)) by (apply Z.pow_pos_nonneg; lia).
    rewrite Z.rem_mul_r by lia. lia.
Qed.

Lemma trim_length_le (bs : list Z) :
  (List.length (trimLeadingZeros bs) <= List.length bs)%nat.
Proof.
  induction bs as [|b bs IH]; simpl; [lia|].
  destruct (b =? 0); simpl; lia.
Qed.

Lemma trim_head_nonzero (bs : list Z) : hd 1 (trimLeadingZeros bs) <> 0.
Proof.
  induction bs as [|b bs IH]; simpl; [lia|].
  destruct (Z.eqb_spec b 0); simpl; auto.
Qed.

Lemma bigEndianBytes_bytes (n : nat) (u : Z) :
  Forall is_byte (bigEndianBytes n u).
Proof.
  induction n as [|k IH]; simpl; constructor; auto.
  unfold is_byte. change 255 with (Z.ones 8). rewrite Z.land_ones by lia.
  apply Z.mod_pos_bound. lia.
Qed.

Lemma trim_bytes (bs : list Z) :
  Forall is_byte bs -> Forall is_byte (trimLeadingZeros bs).
Proof.
  induction 1 as [|b bs Hb Hbs IH]; simpl; [constructor|].
  destruct (b =? 0); auto.
Qed.

Lemma intToBytesBE_value (v : Z) :
  bigEndianValue (intToBytesBE v) = uint64 v.
Proof.
  unfold intToBytesBE. rewrite bigEndianValue_trim, bigEndianValue_bytes.
  unfold uint64. change (8 * Z.of_nat 8) with 64.
  apply Z.mod_mod. lia.
Qed.

Lemma intToBytesBE_length (v : Z) : 0 <= len (intToBytesBE v) <= 8.
Proof.
  unfold intToBytesBE, len.
  pose proof (trim_length_le (bigEndianBytes 8 (uint64 v))) as H.
  rewrite bigEndianBytes_length in H. lia.
Qed.

Lemma intToBytesBE_bytes (v : Z) : Forall is_byte (intToBytesBE v).
Proof. apply trim_bytes, bigEndianBytes_bytes. Qed.

Lemma intToBytesBE_head (v : Z) : hd 1 (intToBytesBE v) <> 0.
Proof. apply trim_head_nonzero. Qed.

(** [intToBytesBE] gives the shortest sequence of the value of a
    non-negative [int]. *)
Lemma intToBytesBE_minimal (n : Z) :
  0 <= n < 2 ^ 64 -> minimalBigEndian (intToBytesBE n) n.
Proof.
  intros Hn. repeat split.
  - apply intToBytesBE_bytes.
  - rewrite intToBytesBE_value. unfold uint64. apply Z.mod_small. lia.
  - apply intToBytesBE_head.
Qed.

(** A length below 2^56 has a zero top byte, so at most seven are left. *)
Lemma intToBytesBE_length_56 (L : Z) :
  0 < L < 2 ^ 56 -> 1 <= len (intToBytesBE L) <= 7.
Proof.
  intros HL. split.
  - pose proof (intToBytesBE_value L) as Hv.
    unfold uint64 in Hv. rewrite Z.mod_small in Hv by lia.
    destruct (intToBytesBE L) as [|b bs].
    + cbv in Hv. lia.
    + unfold len. simpl. lia.
  - unfold intToBytesBE.
    change (bigEndianBytes 8 (uint64 L))
      with (Z.land (Z.shiftr (uint64 L) (8 * Z.of_nat 7)) 255
            :: bigEndianBytes 7 (uint64 L)).
    assert (Htop : Z.land (Z.shiftr (uint64 L) (8 * Z.of_nat 7)) 255 = 0).
    { unfold uint64. rewrite Z.mod_small by lia.
      rewrite Z.shiftr_div_pow2 by lia. change (8 * Z.of_nat 7) with 56.
      rewrite Z.div_small by lia. reflexivity. }
    rewrite Htop. cbn [trimLeadingZeros]. change (0 =? 0) with true.
    cbv iota.
    pose proof (trim_length_le (bigEndianBytes 7 (uint64 L))) as H.
    rewrite bigEndianBytes_length in H. unfold len. lia.
Qed.

Lemma int_of_uint64_uint64 (v : Z) : is_int v -> int_of_uint64 (uint64 v) = v.
Proof.
  unfold is_int, int_min, int_max, int_of_uint64, uint64. intros Hv.
  rewrite Z.mod_mod by lia.
  destruct (Z.ltb_spec (v mod 2 ^ 64) (2 ^ 63)) as [Hlt|Hge].
  - destruct (Z_lt_le_dec v 0) as [Hneg|Hpos].
    + replace v with (v + 2 ^ 64 - 1 * 2 ^ 64) in Hlt by lia.
      rewrite Zminus_mod, Z_mod_mult, Z.sub_0_r, Z.mod_mod in Hlt by lia.
      rewrite Z.mod_small in Hlt by lia. lia.
    + apply Z.mod_small. lia.
  - destruct (Z_lt_le_dec v 0) as [Hneg|Hpos].
    + replace (v mod 2 ^ 64) with ((v + 1 * 2 ^ 64) mod 2 ^ 64)
        by (rewrite Z_mod_plus_full; reflexivity).
      rewrite Z.mod_small by lia. lia.
    + rewrite Z.mod_small in Hge by lia. lia.
Qed.

Lemma int_of_float64_trunc (f : float) (t : Z) :
  float64_trunc f = Some t -> is_int t -> int_of_float64 f = t.
Proof.
  unfold int_of_float64, is_int, is_intb. intros -> [Hlo Hhi].
  apply Z.leb_le in Hlo, Hhi. now rewrite Hlo, Hhi.
Qed.

Lemma string_of_bytes_of_string (s : string) :
  string_of_bytes (bytes_of_string s) = s.
Proof.
  unfold string_of_bytes, bytes_of_string. rewrite map_map.
  rewrite (map_ext _ (fun c => c)), map_id.
  - apply string_of_list_ascii_of_string.
  - intros c. unfold byteChar, charByte.
    now rewrite N2Z.id, ascii_N_embedding.
Qed.

(* ================================================================== *)
(** ** Frames: what [Encode] writes and what the decoder reads back *)

Lemma short_header_fields (L ty : Z) :
  0 <= L < 8 -> 0 <= ty < 16 ->
  let h := Z.lor (uint8 (Z.shiftl L 4)) ty in
  Z.testbit h 7 = false /\ Z.land (Z.shiftr h 4) 7 = L /\ Z.land h 15 = ty.
Proof.
  intros HL Ht. enum L 0 7; enum ty 0 15; cbv; auto.
Qed.

Lemma extended_header_fields (K ty : Z) :
  1 <= K <= 7 -> 0 <= ty < 16 ->
  let h := Z.lor (Z.lor (Z.shiftl 1 7) (uint8 (Z.shiftl K 4))) ty in
  Z.testbit h 7 = true /\ Z.land (Z.shiftr h 4) 7 = K /\ Z.land h 15 = ty.
Proof.
  intros HK Ht. enum K 1 7; enum ty 0 15; cbv; auto.
Qed.

Lemma readBytes_app (a b : list Z) : readBytes (len a) (a ++ b) = Some (a, b).
Proof.
  unfold readBytes, len. rewrite length_app, Nat2Z.id.
  replace ((0 <=? Z.of_nat (List.length a))
           && (Z.of_nat (List.length a)
               <=? Z.of_nat (List.length a + List.length b))) with true
    by (symmetry; apply andb_true_intro; split; apply Z.leb_le; lia).
  rewrite firstn_app, skipn_app, Nat.sub_diag, firstn_all, skipn_all.
  cbn [firstn skipn]. now rewrite app_nil_r.
Qed.

Lemma readBytes_all (a : list Z) : readBytes (len a) a = Some (a, []).
Proof. rewrite <- (app_nil_r a) at 2. apply readBytes_app. Qed.

(** The frame reader of the decoder undoes [frameBytes], whatever bytes
    follow the frame. *)
Lemma readFrame_frameBytes (ty : Z) (value tail : list Z) :
  0 <= ty < 16 -> len value < 2 ^ 56 ->
  readFrame (frameBytes ty value ++ tail)
  = Some (ty, len value, value, len (frameBytes ty value)).
Proof.
  intros Hty Hlen. pose proof (len_nonneg value) as H0.
  unfold frameBytes. destruct (Z.ltb_spec (len value) 8) as [Hs|He].
  - destruct (short_header_fields (len value) ty) as (Hb & Hsz & Htag);
      [lia | lia |].
    cbn [app readFrame]. rewrite Hb, Hsz, Htag, readBytes_app.
    rewrite len_cons. do 2 f_equal; lia.
  - pose proof (intToBytesBE_length_56 (len value)) as HK.
    destruct (extended_header_fields (len (intToBytesBE (len value))) ty)
      as (Hb & Hsz & Htag); [lia | lia |].
    cbn [app readFrame]. rewrite <- app_assoc.
    rewrite Hb, Hsz, Htag, readBytes_app.
    assert (Hu : uint64 (len value) = len value)
      by (unfold uint64; apply Z.mod_small; lia).
    rewrite intToBytesBE_value, Hu, readBytes_app.
    rewrite len_cons, len_app. do 2 f_equal; lia.
Qed.

Lemma stripTerminator_snoc (bs : list Z) :
  stripTerminator (bs ++ [0]) = Some bs.
Proof.
  unfold stripTerminator. rewrite rev_app_distr. cbn [rev app].
  change (0 =? 0) with true. cbv iota. now rewrite rev_involutive.
Qed.

Lemma DecodeRecord_unfold (bs : list Z) :
  DecodeRecord bs = Decode (S (2 * List.length bs + 1)) bs.
Proof. unfold DecodeRecord. f_equal. lia. Qed.

(** Into a [bytes.Buffer] the frame goes whole and without error. *)
Lemma writeFramed_buffer (ty : Z) (value : list Z) :
  writeFramed ty value ([] : list Z) = (frameBytes ty value, Returns None).
Proof.
  unfold writeFramed, Buffer_WriteTo.
  assert (Hpos : 0 < len (frameBytes ty value)).
  { unfold frameBytes. destruct (len value <? 8); cbn [app];
      rewrite len_cons; [|rewrite len_app];
      pose proof (len_nonneg value);
      pose proof (len_nonneg (intToBytesBE (len value))); lia. }
  apply Z.ltb_lt in Hpos. rewrite Hpos.
  unfold Write, BufferWriter. cbn [app].
  rewrite Z.ltb_irrefl, Z.eqb_refl. reflexivity.
Qed.

(** Into a [bytes.Buffer], [Encode] and the general algorithm agree on
    every record. *)
Lemma EncodeBytes_general (record : Record) :
  EncodeBytes record = EncodeGeneral record ([] : list Z).
Proof.
  unfold EncodeBytes, Encode, EncodeGeneral, payloadBytes.
  destruct (Z.eqb_spec (Typ record) TypeInt) as [Hi|Hi].
  - destruct (Value record) as [s|v|f|l|]; try reflexivity.
    destruct (Z.eqb_spec v 0) as [->|Hv]; [|reflexivity].
    rewrite Hi. reflexivity.
  - destruct (Typ record =? TypeString).
    + destruct (Value record); reflexivity.
    + destruct (Typ record =? TypeDouble); [|reflexivity].
      destruct (Value record); reflexivity.
Qed.

Lemma EncodeBytes_payload (record : Record) :
  EncodeBytes record
  = match payloadBytes record with
    | inl err => ([], Returns (Some err))
    | inr value => (frameBytes (Typ record) value, Returns None)
    end.
Proof.
  rewrite EncodeBytes_general. unfold EncodeGeneral.
  destruct (payloadBytes record); [reflexivity | apply writeFramed_buffer].
Qed.

Lemma payloadBytes_tag (record : Record) (value : list Z) :
  payloadBytes record = inr value ->
  Typ record = TypeInt \/ Typ record = TypeString \/ Typ record = TypeDouble.
Proof.
  unfold payloadBytes.
  destruct (Z.eqb_spec (Typ record) TypeInt); [auto|].
  destruct (Z.eqb_spec (Typ record) TypeString); [auto|].
  destruct (Z.eqb_spec (Typ record) TypeDouble); [auto|discriminate].
Qed.

(** Whatever the writer, a record with a payload costs it one [Write],
    of the whole frame. *)
Lemma Encode_writes_frame {W : Type} `{Writer W} (record : Record)
  (value : list Z) (w : W) :
  payloadBytes record = inr value ->
  fst (Encode record w) = fst (Write w (frameBytes (Typ record) value)).
Proof.
  intros Hp.
  assert (Hframe : forall v, fst (writeFramed (Typ record) v w)
                             = fst (Write w (frameBytes (Typ record) v))).
  { intros v. unfold writeFramed, Buffer_WriteTo.
    assert (Hpos : 0 < len (frameBytes (Typ record) v)).
    { unfold frameBytes. destruct (len v <? 8); cbn [app];
        rewrite len_cons; [|rewrite len_app];
        pose proof (len_nonneg v);
        pose proof (len_nonneg (intToBytesBE (len v))); lia. }
    apply Z.ltb_lt in Hpos. rewrite Hpos.
    destruct (Write w (frameBytes (Typ record) v)) as [w' [m e]].
    destruct (len (frameBytes (Typ record) v) <? m); [reflexivity|].
    destruct e; [reflexivity|].
    destruct (negb (m =? len (frameBytes (Typ record) v))); reflexivity. }
  revert Hp. unfold Encode, payloadBytes.
  destruct (Z.eqb_spec (Typ record) TypeInt) as [Hi|Hi].
  - destruct (Value record) as [s|v|f|l|]; try discriminate.
    intros Hp. inversion Hp. subst value.
    destruct (Z.eqb_spec v 0) as [->|Hv]; [|apply Hframe].
    rewrite Hi. change (frameBytes TypeInt (intToBytesBE 0)) with [0].
    destruct (Write w [0]) as [w' [m e]]. reflexivity.
  - destruct (Typ record =? TypeString).
    + destruct (Value record); try discriminate.
      intros Hp. inversion Hp. apply Hframe.
    + destruct (Typ record =? TypeDouble); [|discriminate].
      destruct (Value record); try discriminate.
      intros Hp. inversion Hp. apply Hframe.
Qed.

(** With a writer that honours the contract of [io.Writer] (a count within
    the slice, an error on a short count), [Encode] and the general
    algorithm agree on every record, state and result. *)
Lemma Encode_general {W : Type} `{Writer W} (record : Record) (w : W) :
  (forall w0 p, let '(_, (n, e)) := Write w0 p in
                0 <= n <= len p /\ (n < len p -> e <> None)) ->
  Encode record w = EncodeGeneral record w.
Proof.
  intros Hcontract. unfold Encode, EncodeGeneral, payloadBytes.
  destruct (Z.eqb_spec (Typ record) TypeInt) as [Hi|Hi].
  - destruct (Value record) as [s|v|f|l|]; try reflexivity.
    destruct (Z.eqb_spec v 0) as [->|Hv]; [|reflexivity].
    rewrite Hi. change (intToBytesBE 0) with (@nil Z).
    unfold writeFramed, Buffer_WriteTo.
    change (frameBytes TypeInt []) with [0].
    change (0 <? len [0]) with true. cbv iota.
    specialize (Hcontract w [0]).
    destruct (Write w [0]) as [w' [m e]]. change (len [0]) with 1 in *.
    destruct Hcontract as [Hm He].
    destruct (Z.ltb_spec 1 m); [lia|].
    destruct e as [err|]; [reflexivity|].
    destruct (Z.eqb_spec m 1); [reflexivity|].
    exfalso. apply He; [lia | reflexivity].
  - destruct (Typ record =? TypeString).
    + destruct (Value record); reflexivity.
    + destruct (Typ record =? TypeDouble); [|reflexivity].
      destruct (Value record); reflexivity.
Qed.

(* ================================================================== *)
(** ** The record codec *)

(** C1.  For every [int] value [v], zero, negative and eight-byte values
    included, [Encode] of an Integer record holding [v] succeeds, and the
    decoder reads from its output an Integer record holding [v] again,
    consuming exactly the bytes [Encode] produced, whatever bytes follow
    them. *)
Theorem integer_roundtrip (sz v : Z) :
  is_int v ->
  exists out,
    EncodeBytes (mkRecord sz TypeInt (VInt v)) = (out, Returns None)
    /\ forall tail,
        DecodeRecord (out ++ tail)
        = inr (mkRecord (len (intToBytesBE v)) TypeInt (VInt v), len out).
Proof.
  intros Hv. exists (frameBytes TypeInt (intToBytesBE v)). split.
  - rewrite EncodeBytes_payload. reflexivity.
  - intros tail. pose proof (intToBytesBE_length v) as HL.
    rewrite DecodeRecord_unfold. cbn [Decode].
    rewrite readFrame_frameBytes by (unfold TypeInt; lia).
    cbn [Z.eqb TypeInt].
    now rewrite intToBytesBE_value, int_of_uint64_uint64.
Qed.

Lemma integer_roundtrip_witness :
  is_int (-1)
  /\ exists out,
      EncodeBytes (mkRecord 0 TypeInt (VInt (-1))) = (out, Returns None)
      /\ forall tail,
          DecodeRecord (out ++ tail)
          = inr (mkRecord (len (intToBytesBE (-1))) TypeInt (VInt (-1)),
                 len out).
Proof.
  assert (H : is_int (-1)) by (unfold is_int, int_min, int_max; lia).
  split; [exact H | exact (integer_roundtrip 0 (-1) H)].
Defined.

(** Zero is the single byte 0x00, a negative value takes the eight bytes of
    its two's-complement pattern behind an extended header. *)
Example integer_samples :
  EncodeBytes (mkRecord 0 TypeInt (VInt 0)) = ([0], Returns None)
  /\ EncodeBytes (mkRecord 0 TypeInt (VInt 258)) = ([32; 1; 2], Returns None)
  /\ EncodeBytes (mkRecord 0 TypeInt (VInt (-2)))
     = ([144; 8; 255; 255; 255; 255; 255; 255; 255; 254], Returns None)
  /\ DecodeRecord [144; 8; 255; 255; 255; 255; 255; 255; 255; 254]
     = inr (mkRecord 8 TypeInt (VInt (-2)), 10).
Proof. vm_compute. auto. Qed.

(** C2.  For every record [Encode] encodes successfully, with L the length
    of its payload: when L < 8 the output is the one header byte
    (L << 4) | Type, whose bit 7 is clear, followed directly by the payload;
    when L >= 8 the header byte has bit 7 set and bits 4-6 equal to K, the
    number of bytes of the minimal big-endian encoding of L, and those K
    bytes stand between the header and the payload.  (A slice holds fewer
    than 2^56 bytes.) *)
Theorem header_layout (record : Record) (out : list Z) :
  EncodeBytes record = (out, Returns None) ->
  exists value,
    payloadBytes record = inr value
    /\ (len value < 8 ->
        out = Z.lor (Z.shiftl (len value) 4) (Typ record) :: value
        /\ Z.testbit (Z.lor (Z.shiftl (len value) 4) (Typ record)) 7 = false)
    /\ (8 <= len value < 2 ^ 56 ->
        exists header sizeBytes,
          out = header :: sizeBytes ++ value
          /\ Z.testbit header 7 = true
          /\ Z.land (Z.shiftr header 4) 7 = len sizeBytes
          /\ Z.land header 15 = Typ record
          /\ minimalBigEndian sizeBytes (len value)).
Proof.
  rewrite EncodeBytes_payload.
  destruct (payloadBytes record) as [err|value] eqn:Hp; [discriminate|].
  intros Hout. inversion Hout as [Hf]. clear Hout.
  exists value. split; [reflexivity|].
  assert (Hty : 0 <= Typ record < 16).
  { destruct (payloadBytes_tag _ _ Hp) as [-> | [-> | ->]]; cbv;
      intuition discriminate. }
  pose proof (len_nonneg value) as H0.
  unfold frameBytes. split; intros HL.
  - apply Z.ltb_lt in HL as Hb. rewrite Hb. cbn [app].
    assert (Hu : uint8 (Z.shiftl (len value) 4) = Z.shiftl (len value) 4).
    { unfold uint8. apply Z.mod_small. rewrite Z.shiftl_mul_pow2 by lia. lia. }
    rewrite Hu. split; [reflexivity|].
    rewrite <- Hu. apply short_header_fields; lia.
  - assert (Hb : (len value <? 8) = false) by (apply Z.ltb_ge; lia).
    rewrite Hb. cbn [app].
    pose proof (intToBytesBE_length_56 (len value)) as HK.
    destruct (extended_header_fields (len (intToBytesBE (len value)))
                (Typ record)) as (B7 & Bsz & Btag); [lia | lia |].
    eexists _, (intToBytesBE (len value)).
    split; [reflexivity|]. split; [exact B7|]. split; [exact Bsz|].
    split; [exact Btag|]. apply intToBytesBE_minimal. lia.
Qed.

Lemma header_layout_witness :
  let record := mkRecord 0 TypeString (VString "abcdefg") in
  let out := [145; 8; 97; 98; 99; 100; 101; 102; 103; 0] in
  EncodeBytes record = (out, Returns None)
  /\ exists value,
      payloadBytes record = inr value
      /\ (len value < 8 ->
          out = Z.lor (Z.shiftl (len value) 4) (Typ record) :: value
          /\ Z.testbit (Z.lor (Z.shiftl (len value) 4) (Typ record)) 7
             = false)
      /\ (8 <= len value < 2 ^ 56 ->
          exists header sizeBytes,
            out = header :: sizeBytes ++ value
            /\ Z.testbit header 7 = true
            /\ Z.land (Z.shiftr header 4) 7 = len sizeBytes
            /\ Z.land header 15 = Typ record
            /\ minimalBigEndian sizeBytes (len value)).
Proof.
  intros record out.
  assert (H : EncodeBytes record = (out, Returns None)) by reflexivity.
  split; [exact H | exact (header_layout record out H)].
Defined.

(** A payload of seven bytes takes the short header 0x71, one of eight
    bytes the extended header 0x91 and the length byte 8. *)
Example header_boundary :
  EncodeBytes (mkRecord 0 TypeString (VString "abcdef"))
  = ([113; 97; 98; 99; 100; 101; 102; 0], Returns None)
  /\ EncodeBytes (mkRecord 0 TypeString (VString "abcdefg"))
     = ([145; 8; 97; 98; 99; 100; 101; 102; 103; 0], Returns None)
  /\ DecodeRecord [113; 97; 98; 99; 100; 101; 102; 0]
     = inr (mkRecord 7 TypeString (VString "abcdef"), 8)
  /\ DecodeRecord [145; 8; 97; 98; 99; 100; 101; 102; 103; 0]
     = inr (mkRecord 8 TypeString (VString "abcdefg"), 10).
Proof. vm_compute. auto. Qed.

(** C3.  For a Fixed record holding [x], with [t] the integer part of
    [x * 1000] taken toward zero and fitting an [int]: the payload
    [Encode] writes is the minimal big-endian encoding of [t], the one
    used for Integer, and the decoder reads from the output, whatever
    follows it, the Fixed value [t / 1000.0], which is what the precision
    law states in place of [x]. *)
Theorem fixed_precision (sz : Z) (x : float) (t : Z) :
  float64_trunc (x * 1000) = Some t -> is_int t ->
  let record := mkRecord sz TypeDouble (VFloat64 x) in
  payloadBytes record = inr (intToBytesBE t)
  /\ payloadBytes (mkRecord sz TypeInt (VInt t)) = inr (intToBytesBE t)
  /\ exists out,
      EncodeBytes record = (out, Returns None)
      /\ forall tail,
          DecodeRecord (out ++ tail)
          = inr (mkRecord (len (intToBytesBE t)) TypeDouble
                   (VFloat64 (float64_of_int t / 1000)), len out).
Proof.
  intros Ht Hr record.
  assert (Hp : payloadBytes record = inr (intToBytesBE t)).
  { unfold payloadBytes, record. cbn [Typ Value].
    change (TypeDouble =? TypeInt) with false.
    change (TypeDouble =? TypeString) with false.
    change (TypeDouble =? TypeDouble) with true. cbv iota.
    now rewrite (int_of_float64_trunc _ _ Ht Hr). }
  split; [exact Hp|]. split; [reflexivity|].
  exists (frameBytes TypeDouble (intToBytesBE t)). split.
  - rewrite EncodeBytes_payload, Hp. reflexivity.
  - intros tail. pose proof (intToBytesBE_length t) as HL.
    rewrite DecodeRecord_unfold. cbn [Decode].
    rewrite readFrame_frameBytes by (unfold TypeDouble; lia).
    change (TypeDouble =? TypeInt) with false.
    change (TypeDouble =? TypeString) with false.
    change (TypeDouble =? TypeDouble) with true. cbv iota.
    now rewrite intToBytesBE_value, int_of_uint64_uint64.
Qed.

Lemma fixed_precision_witness :
  float64_trunc (sampleFixed * 1000) = Some 1234
  /\ is_int 1234
  /\ exists out,
      EncodeBytes (mkRecord 0 TypeDouble (VFloat64 sampleFixed))
      = (out, Returns None)
      /\ forall tail,
          DecodeRecord (out ++ tail)
          = inr (mkRecord (len (intToBytesBE 1234)) TypeDouble
                   (VFloat64 (float64_of_int 1234 / 1000)), len out).
Proof.
  assert (Ht : float64_trunc (sampleFixed * 1000) = Some 1234)
    by (vm_compute; reflexivity).
  assert (Hr : is_int 1234) by (unfold is_int, int_min, int_max; lia).
  split; [exact Ht|]. split; [exact Hr|].
  exact (proj2 (proj2 (fixed_precision 0 sampleFixed 1234 Ht Hr))).
Defined.

(** 1.23456 comes back as 1.234, which is not the value sent; 1234.5 has no
    digit beyond the third decimal and comes back as it is. *)
Example fixed_samples :
  EncodeBytes (mkRecord 0 TypeDouble (VFloat64 sampleFixed))
  = ([34; 4; 210], Returns None)
  /\ DecodeRecord [34; 4; 210]
     = inr (mkRecord 2 TypeDouble (VFloat64 (float64_of_int 1234 / 1000)), 3)
  /\ fmt.Sprintf_3f (float64_of_int 1234 / 1000) = "1.234"%string
  /\ PrimFloat.eqb (float64_of_int 1234 / 1000) sampleFixed = false
  /\ DecodeRecord (fst (EncodeBytes (mkRecord 0 TypeDouble (VFloat64 1234.5))))
     = inr (mkRecord 3 TypeDouble (VFloat64 1234.5), 4).
Proof. vm_compute. auto. Qed.

(** Outside that range the statement fails.  12345678901234568 times 1000
    is a float of integer value 12345678901234567168, above the largest
    [int]; [int(x * 1000)] is then the smallest [int], the payload is
    its eight bytes and not the encoding of the truncated product, and
    the decoder yields -9223372036854776, not the truncated product over
    1000. *)
Lemma fixed_precision_counterexample :
  let record := mkRecord 0 TypeDouble (VFloat64 hugeFixed) in
  let t := 12345678901234567168 in
  float64_trunc (hugeFixed * 1000) = Some t
  /\ payloadBytes record <> inr (intToBytesBE t)
  /\ EncodeBytes record = ([146; 8; 128; 0; 0; 0; 0; 0; 0; 0], Returns None)
  /\ DecodeRecord [146; 8; 128; 0; 0; 0; 0; 0; 0; 0]
     = inr (mkRecord 8 TypeDouble (VFloat64 (float64_of_int int_min / 1000)),
            10)
  /\ PrimFloat.eqb (float64_of_int int_min / 1000) (float64_of_int t / 1000)
     = false.
Proof.
  intros record t. repeat split; try (vm_compute; reflexivity).
  vm_compute. discriminate.
Qed.

(** C4.  For an Integer record holding 0 the general algorithm gives a
    payload of length zero and with it the single header byte
    (0 << 4) | TypeInt; that byte is 0x00, the byte the shortcut of
    [Encode] writes, so the output of [Encode] is byte for byte the output
    of the general algorithm, in a buffer and through any writer. *)
Theorem zero_shortcut_refines (sz : Z) :
  let record := mkRecord sz TypeInt (VInt 0) in
  payloadBytes record = inr []
  /\ frameBytes (Typ record) [] = [Z.lor (Z.shiftl 0 4) TypeInt]
  /\ Z.lor (Z.shiftl 0 4) TypeInt = 0
  /\ EncodeBytes record = ([0], Returns None)
  /\ EncodeGeneral record ([] : list Z) = ([0], Returns None)
  /\ (forall (W : Type) (wr : Writer W) (w : W),
        fst (Encode record w) = fst (EncodeGeneral record w)).
Proof.
  intros record. repeat split; try reflexivity.
  intros W wr w.
  change (Encode record w)
    with (let '(w', (_, err)) := Write w [0] in (w', Returns err)).
  change (EncodeGeneral record w) with (writeFramed TypeInt [] w).
  unfold writeFramed, Buffer_WriteTo.
  change (frameBytes TypeInt []) with [0].
  change (0 <? len [0]) with true. cbv iota.
  destruct (Write w [0]) as [w' [m e]].
  destruct (len [0] <? m); [reflexivity|].
  destruct e; [reflexivity|].
  destruct (negb (m =? len [0])); reflexivity.
Qed.

(** Both algorithms hand the writer the one slice [0x00]. *)
Example zero_shortcut_calls :
  fst (Encode (mkRecord 0 TypeInt (VInt 0)) ([] : list (list Z))) = [[0]]
  /\ fst (EncodeGeneral (mkRecord 0 TypeInt (VInt 0)) ([] : list (list Z)))
     = [[0]].
Proof. vm_compute. auto. Qed.

(** C5.  For every string [s] the payload of a Text record holding [s] is
    the bytes of [s] followed by one 0x00, of length len(s) + 1; the empty
    string gives the one-byte payload 0x00; [Encode] writes that payload
    in its frame, and the decoder reads [s] back from the output, whatever
    follows it.  (A slice holds fewer than 2^56 bytes.) *)
Theorem text_payload_roundtrip (sz : Z) (s : string) :
  let record := mkRecord sz TypeString (VString s) in
  let payload := bytes_of_string s ++ [0] in
  payloadBytes record = inr payload
  /\ len payload = len (bytes_of_string s) + 1
  /\ payloadBytes (mkRecord sz TypeString (VString "")) = inr [0]
  /\ EncodeBytes record = (frameBytes TypeString payload, Returns None)
  /\ (exists prefix, frameBytes TypeString payload = prefix ++ payload)
  /\ (len payload < 2 ^ 56 ->
      forall tail,
        DecodeRecord (frameBytes TypeString payload ++ tail)
        = inr (mkRecord (len payload) TypeString (VString s),
               len (frameBytes TypeString payload))).
Proof.
  intros record payload.
  assert (Hp : payloadBytes record = inr payload) by reflexivity.
  split; [exact Hp|]. split.
  { unfold payload. rewrite len_app. reflexivity. }
  split; [reflexivity|]. split.
  { rewrite EncodeBytes_payload, Hp. reflexivity. }
  split.
  { unfold frameBytes. destruct (len payload <? 8).
    - eexists. reflexivity.
    - eexists (_ :: _). cbn [app]. reflexivity. }
  intros Hlen tail. rewrite DecodeRecord_unfold. cbn [Decode].
  rewrite readFrame_frameBytes by (unfold TypeString; lia).
  change (TypeString =? TypeInt) with false.
  change (TypeString =? TypeString) with true. cbv iota.
  unfold payload at 1. rewrite stripTerminator_snoc.
  now rewrite string_of_bytes_of_string.
Qed.

Lemma text_payload_roundtrip_witness :
  let payload := bytes_of_string "tm.stats" ++ [0] in
  len payload < 2 ^ 56
  /\ forall tail,
      DecodeRecord (frameBytes TypeString payload ++ tail)
      = inr (mkRecord (len payload) TypeString (VString "tm.stats"),
             len (frameBytes TypeString payload)).
Proof.
  intros payload.
  assert (H : len payload < 2 ^ 56) by (vm_compute; reflexivity).
  split; [exact H|].
  exact (proj2 (proj2 (proj2 (proj2 (proj2
           (text_payload_roundtrip 0 "tm.stats"))))) H).
Defined.

(** The empty string and a method name on the wire. *)
Example text_samples :
  EncodeBytes (mkRecord 0 TypeString (VString "")) = ([17; 0], Returns None)
  /\ DecodeRecord [17; 0] = inr (mkRecord 1 TypeString (VString ""), 2)
  /\ EncodeBytes (mkRecord 0 TypeString (VString "tm.stats"))
     = ([145; 9; 116; 109; 46; 115; 116; 97; 116; 115; 0], Returns None).
Proof. vm_compute. auto. Qed.

(** C6.  For every record whose tag is Struct, or any tag other than
    Integer, Text and Fixed, and for every writer, [Encode] returns the
    failure "type not implemented" and the writer is in the state it was
    in: nothing was written. *)
Theorem encode_unsupported {W : Type} `{Writer W} (record : Record) (w : W) :
  Typ record = TypeStruct
  \/ (Typ record <> TypeInt /\ Typ record <> TypeString
      /\ Typ record <> TypeDouble) ->
  Encode record w = (w, Returns (Some (ErrNotImplemented (Typ record)))).
Proof.
  intros Hty.
  assert (Hn : Typ record <> TypeInt /\ Typ record <> TypeString
               /\ Typ record <> TypeDouble).
  { destruct Hty as [-> | Hn]; [|exact Hn]. repeat split; discriminate. }
  destruct Hn as (Hi & Hs & Hd). apply Z.eqb_neq in Hi, Hs, Hd.
  unfold Encode. now rewrite Hi, Hs, Hd.
Qed.

Lemma encode_unsupported_witness :
  let record :=
    mkRecord 0 TypeStruct (VStructItems [mkStructItem "kos"
                                           (mkRecord 1 TypeInt (VInt 42))]) in
  Encode record ([] : list (list Z))
  = ([], Returns (Some (ErrNotImplemented TypeStruct))).
Proof.
  intros record.
  exact (encode_unsupported record [] (or_introl eq_refl)).
Defined.

(* ================================================================== *)
(** ** Strict accessors and the conversion layer *)

(** C8.  For every record whose [Value] has the dynamic type its tag
    announces, each strict accessor returns an error exactly when the tag
    is not the one it expects, and on its own tag returns the stored value
    as it is. *)
Theorem strict_accessors (record : Record) :
  well_typed record ->
  ((fails (snd (Accessors.String record)) <-> Typ record <> TypeString)
   /\ (Typ record = TypeString ->
       exists s, Value record = VString s
                 /\ snd (Accessors.String record) = Returns (s, None)))
  /\ ((fails (snd (Accessors.Int record)) <-> Typ record <> TypeInt)
      /\ (Typ record = TypeInt ->
          exists n, Value record = VInt n
                    /\ snd (Accessors.Int record) = Returns (n, None)))
  /\ ((fails (snd (Accessors.Double record)) <-> Typ record <> TypeDouble)
      /\ (Typ record = TypeDouble ->
          exists f, Value record = VFloat64 f
                    /\ snd (Accessors.Double record) = Returns (f, None)))
  /\ ((fails (snd (Accessors.StructItems record))
       <-> Typ record <> TypeStruct)
      /\ (Typ record = TypeStruct ->
          exists l, Value record = VStructItems l
                    /\ snd (Accessors.StructItems record)
                       = Returns (l, None))).
Proof.
  intros Hwt. unfold fails.
  unfold Accessors.String, Accessors.Int, Accessors.Double,
    Accessors.StructItems.
  unfold well_typed in Hwt. tag_cases record.
  all: repeat match goal with
         | H : (Typ _ =? _) = true |- _ =>
             apply Z.eqb_eq in H; rewrite H in *; clear H
         | H : exists _, _ |- _ => destruct H as [? H]
         | H : Value _ = _ |- _ => rewrite H; clear H
         end.
  all: cbn.
  all: repeat split; intros; try discriminate; try congruence.
  all: try (eexists _, _; reflexivity).
  all: try (eexists; split; reflexivity).
  all: try match goal with
         | H : exists _ _, _ |- _ => destruct H as (? & ? & H); discriminate
         end.
  all: try match goal with
         | H : ?x <> ?x |- _ => contradiction
         end.
  all: try (apply Z.eqb_neq; assumption).
  all: try match goal with
         | H : Typ ?r = ?t, H' : (Typ ?r =? ?t) = false |- _ =>
             apply Z.eqb_neq in H'; contradiction
         end.
Qed.

Lemma strict_accessors_witness :
  let record := mkRecord 1 TypeInt (VInt 42) in
  well_typed record
  /\ (fails (snd (Accessors.String record)) <-> Typ record <> TypeString)
  /\ (Typ record = TypeInt ->
      exists n, Value record = VInt n
                /\ snd (Accessors.Int record) = Returns (n, None)).
Proof.
  intros record.
  assert (H : well_typed record) by (exists 42; reflexivity).
  split; [exact H|]. split.
  - exact (proj1 (proj1 (strict_accessors record H))).
  - exact (proj2 (proj1 (proj2 (strict_accessors record H)))).
Defined.

Section ScanProperties.

Variable ParseFloat64 : string -> float * option error.

(** C7.  For every record whose [Value] has the dynamic type its tag
    announces and for every target, [Scan] does what the table of
    conversions says and nothing else: String to string by copy, Integer
    to string in base 10, Fixed to string with three decimals, String to
    int by base-10 parsing, Integer to int by copy, String to float by
    parsing, Integer to float by widening, Fixed to float by copy, Struct
    to struct items by copy; for every other pair of record kind and
    target kind it returns a conversion failure and stores nothing. *)
Theorem scan_conversions (record : Record) (dest : Dest) :
  well_typed record ->
  Scan ParseFloat64 record dest
  = match (if knownTag (Typ record)
           then conversionTable ParseFloat64 (Value record) dest
           else None) with
    | Some (inl pointee) => ((record, pointee), Returns None)
    | Some (inr err) => ((record, dest), Returns (Some err))
    | None =>
        ((record, dest),
         Returns (Some (conversionFailure (Typ record) dest)))
    end.
Proof.
  unfold Scan, well_typed, knownTag. tag_cases record.
  - apply Z.eqb_eq in Hs. rewrite Hs.
    intros [s Hv]. rewrite Hv. destruct dest; cbn; try reflexivity.
    + destruct (strconv.Atoi s) as [n [e|]]; reflexivity.
    + destruct (ParseFloat64 s) as [x [e|]]; reflexivity.
  - apply Z.eqb_eq in Hi. rewrite Hi.
    intros [n Hv]. rewrite Hv. destruct dest; reflexivity.
  - apply Z.eqb_eq in Hd. rewrite Hd.
    intros [f Hv]. rewrite Hv. destruct dest; reflexivity.
  - apply Z.eqb_eq in Hst. rewrite Hst.
    intros [l Hv]. rewrite Hv. destruct dest; reflexivity.
  - intros _. destruct dest; reflexivity.
Qed.

(** C9.  For every record and every destination, whatever the outcome,
    the record behind the receiver of [Scan] is after the call what it was
    before, and so is the receiver of each strict accessor. *)
Theorem record_unchanged (record : Record) (dest : Dest) :
  fst (fst (Scan ParseFloat64 record dest)) = record
  /\ fst (Accessors.String record) = record
  /\ fst (Accessors.Int record) = record
  /\ fst (Accessors.Double record) = record
  /\ fst (Accessors.StructItems record) = record.
Proof.
  repeat split.
  - unfold Scan, assertionPanic.
    destruct dest; scan_branches record ParseFloat64; reflexivity.
  - unfold Accessors.String.
    destruct (negb _); [|destruct (Value record)]; reflexivity.
  - unfold Accessors.Int.
    destruct (negb _); [|destruct (Value record)]; reflexivity.
  - unfold Accessors.Double.
    destruct (negb _); [|destruct (Value record)]; reflexivity.
  - unfold Accessors.StructItems.
    destruct (negb _); [|destruct (Value record)]; reflexivity.
Qed.

(** C10.  When [Scan] takes a String record to an int or a float
    destination and the parse reports an error, [Scan] returns that error
    and the pointee of the destination is as it was; and whenever [Scan]
    does not return nil, error or panic, the pointee is as it was. *)
Theorem scan_failure_keeps_dest (record : Record) (dest : Dest) :
  (forall s p n err,
      Typ record = TypeString -> Value record = VString s ->
      dest = PtrInt p -> strconv.Atoi s = (n, Some err) ->
      Scan ParseFloat64 record dest = ((record, dest), Returns (Some err)))
  /\ (forall s p x err,
      Typ record = TypeString -> Value record = VString s ->
      dest = PtrFloat64 p -> ParseFloat64 s = (x, Some err) ->
      Scan ParseFloat64 record dest = ((record, dest), Returns (Some err)))
  /\ (snd (Scan ParseFloat64 record dest) <> Returns None ->
      snd (fst (Scan ParseFloat64 record dest)) = dest).
Proof.
  repeat split.
  - intros s p n err Ht Hv -> Ha. unfold Scan.
    rewrite Ht, Hv, Ha. reflexivity.
  - intros s p x err Ht Hv -> Ha. unfold Scan.
    rewrite Ht, Hv, Ha. reflexivity.
  - unfold Scan, assertionPanic.
    destruct dest; scan_branches record ParseFloat64; cbn; intros Hne;
      try reflexivity; contradiction.
Qed.

End ScanProperties.

Lemma scan_conversions_witness :
  let record := mkRecord 1 TypeInt (VInt 42) in
  well_typed record
  /\ Scan strconv.rejectFloat record (PtrString "")
     = ((record, PtrString "42"), Returns None)
  /\ Scan strconv.rejectFloat record (PtrStructItems [])
     = ((record, PtrStructItems []),
        Returns (Some (ErrConvert TypeInt "[]StructItem"))).
Proof.
  intros record.
  assert (H : well_typed record) by (exists 42; reflexivity).
  split; [exact H|]. split.
  - exact (scan_conversions strconv.rejectFloat record (PtrString "") H).
  - exact (scan_conversions strconv.rejectFloat record (PtrStructItems []) H).
Defined.

Lemma scan_failure_keeps_dest_witness :
  let record := mkRecord 4 TypeString (VString "12a") in
  strconv.Atoi "12a" = (0, Some (NumError "Atoi" "12a" ErrSyntax))
  /\ Scan strconv.rejectFloat record (PtrInt 7)
     = ((record, PtrInt 7), Returns (Some (NumError "Atoi" "12a" ErrSyntax)))
  /\ Scan strconv.rejectFloat record (PtrFloat64 0.5)
     = ((record, PtrFloat64 0.5),
        Returns (Some (NumError "ParseFloat" "12a" ErrSyntax))).
Proof.
  intros record.
  assert (H : strconv.Atoi "12a" = (0, Some (NumError "Atoi" "12a" ErrSyntax)))
    by reflexivity.
  split; [exact H|]. split.
  - exact (proj1 (scan_failure_keeps_dest strconv.rejectFloat record (PtrInt 7))
             "12a"%string 7 0 _ eq_refl eq_refl eq_refl H).
  - exact (proj1 (proj2 (scan_failure_keeps_dest strconv.rejectFloat record
                           (PtrFloat64 0.5)))
             "12a"%string 0.5%float 0%float _ eq_refl eq_refl eq_refl eq_refl).
Defined.

(** [Scan] on the records of a reply: an Integer read as text, as a float
    and as an int, a Fixed read as text with the third decimal rounded,
    a String parsed as an int, a Struct refused as text. *)
Example scan_samples :
  snd (fst (Scan strconv.rejectFloat (mkRecord 1 TypeInt (VInt (-42)))
              (PtrString ""))) = PtrString "-42"
  /\ snd (fst (Scan strconv.rejectFloat (mkRecord 1 TypeInt (VInt 3))
                 (PtrFloat64 0))) = PtrFloat64 3
  /\ snd (fst (Scan strconv.rejectFloat
                 (mkRecord 2 TypeDouble (VFloat64 sampleFixed))
                 (PtrString ""))) = PtrString "1.235"
  /\ snd (fst (Scan strconv.rejectFloat (mkRecord 4 TypeString (VString "+17"))
                 (PtrInt 0))) = PtrInt 17
  /\ Scan strconv.rejectFloat (mkRecord 0 TypeStruct (VStructItems []))
       (PtrString "x")
     = ((mkRecord 0 TypeStruct (VStructItems []), PtrString "x"),
        Returns (Some (ErrConvert TypeStruct "string")))
  /\ Scan strconv.rejectFloat (mkRecord 2 TypeDouble (VFloat64 sampleFixed))
       (PtrInt 5)
     = ((mkRecord 2 TypeDouble (VFloat64 sampleFixed), PtrInt 5),
        Returns (Some (ErrConvert TypeDouble "int"))).
Proof. vm_compute. auto 10. Qed.

(** Outside the invariant of the data model the type assertions panic:
    a record tagged String that holds an int, read by [Scan] and by the
    accessor, with the destination left as it was. *)
Example ill_typed_panics :
  Scan strconv.rejectFloat (mkRecord 0 TypeString (VInt 5)) (PtrString "x")
  = ((mkRecord 0 TypeString (VInt 5), PtrString "x"),
     Panics Accessors.badAssertion)
  /\ snd (Accessors.String (mkRecord 0 TypeString (VInt 5)))
     = Panics Accessors.badAssertion.
Proof. split; reflexivity. Qed.

(** The library models on sample inputs: [int(f)] drops the fraction toward
    zero and gives the smallest [int] out of range; [Atoi] takes a sign,
    refuses a stray character and reports a value out of range; [%.3f]
    rounds the third decimal. *)
Example library_samples :
  int_of_float64 2.75 = 2
  /\ int_of_float64 (-2.75) = -2
  /\ int_of_float64 0x1p+70 = int_min
  /\ int_of_float64 infinity = int_min
  /\ strconv.Atoi "-9223372036854775808" = (int_min, None)
  /\ strconv.Atoi "9223372036854775808"
     = (int_max, Some (NumError "Atoi" "9223372036854775808" ErrRange))
  /\ strconv.Atoi "" = (0, Some (NumError "Atoi" "" ErrSyntax))
  /\ strconv.Itoa (-120) = "-120"%string
  /\ fmt.Sprintf_3f 2.5 = "2.500"%string
  /\ fmt.Sprintf_3f (-0.0625) = "-0.062"%string
  /\ fmt.Sprintf_3f 0.1875 = "0.188"%string
  /\ fmt.Sprintf_3f neg_infinity = "-Inf"%string.
Proof. vm_compute. auto 20. Qed.

(* ================================================================== *)
(** ** [Encode] and its writer *)

Lemma frameBytes_nonempty (ty : Z) (value : list Z) :
  0 < len (frameBytes ty value).
Proof.
  unfold frameBytes. destruct (len value <? 8); cbn [app];
    rewrite len_cons; [|rewrite len_app];
    pose proof (len_nonneg value);
    pose proof (len_nonneg (intToBytesBE (len value))); lia.
Qed.

(** What [Encode] returns for a record that has a payload, by the answer of
    the writer to the one [Write] it receives. *)
Lemma Encode_by_write {W : Type} `{Writer W} (record : Record)
  (value : list Z) (w w' : W) (m : Z) (e : option error) :
  payloadBytes record = inr value ->
  Write w (frameBytes (Typ record) value) = (w', (m, e)) ->
  Encode record w
  = if takesShortcut record then (w', Returns e)
    else if len (frameBytes (Typ record) value) <? m then
      (w', Panics "bytes.Buffer.WriteTo: invalid Write count")
    else match e with
         | Some err => (w', Returns (Some err))
         | None =>
             if m =? len (frameBytes (Typ record) value)
             then (w', Returns None)
             else (w', Returns (Some ErrShortWrite))
         end.
Proof.
  intros Hp Hw.
  assert (Hframe : writeFramed (Typ record) value w
                   = if len (frameBytes (Typ record) value) <? m then
                       (w', Panics "bytes.Buffer.WriteTo: invalid Write count")
                     else match e with
                          | Some err => (w', Returns (Some err))
                          | None =>
                              if m =? len (frameBytes (Typ record) value)
                              then (w', Returns None)
                              else (w', Returns (Some ErrShortWrite))
                          end).
  { unfold writeFramed, Buffer_WriteTo.
    pose proof (frameBytes_nonempty (Typ record) value) as Hpos.
    apply Z.ltb_lt in Hpos. rewrite Hpos, Hw.
    destruct (len (frameBytes (Typ record) value) <? m); [reflexivity|].
    destruct e; [reflexivity|].
    destruct (m =? len (frameBytes (Typ record) value)); reflexivity. }
  revert Hp Hw. unfold Encode, payloadBytes, takesShortcut.
  destruct (Z.eqb_spec (Typ record) TypeInt) as [Hi|Hi]; cbn [andb].
  - destruct (Value record) as [s|v|f|l|]; try discriminate.
    intros Hp Hw. inversion Hp. subst value.
    destruct (Z.eqb_spec v 0) as [->|Hv]; [|exact Hframe].
    rewrite Hi in Hw.
    change (frameBytes TypeInt (intToBytesBE 0)) with [0] in Hw.
    rewrite Hw. reflexivity.
  - destruct (Typ record =? TypeString).
    + destruct (Value record); try discriminate.
      intros Hp _. inversion Hp. subst value. exact Hframe.
    + destruct (Typ record =? TypeDouble); [|discriminate].
      destruct (Value record); try discriminate.
      intros Hp _. inversion Hp. subst value. exact Hframe.
Qed.

(** A record without a payload is refused before the writer is touched. *)
Lemma Encode_refused {W : Type} `{Writer W} (record : Record) (err : error)
  (w : W) :
  payloadBytes record = inl err -> Encode record w = (w, Returns (Some err)).
Proof.
  unfold Encode, payloadBytes.
  destruct (Typ record =? TypeInt).
  { destruct (Value record); intros Hp; inversion Hp; reflexivity. }
  destruct (Typ record =? TypeString).
  { destruct (Value record); intros Hp; inversion Hp; reflexivity. }
  destruct (Typ record =? TypeDouble).
  { destruct (Value record); intros Hp; inversion Hp; reflexivity. }
  intros Hp; inversion Hp; reflexivity.
Qed.

(** X1.  A record tagged Integer, Text or Fixed whose [Value] is of another
    dynamic type is refused by [Encode] with "expected type int" (string,
    float64): it returns the error, does not panic, and whatever the
    writer it writes nothing. *)
Theorem encode_type_mismatch {W : Type} `{Writer W} (record : Record) (w : W) :
  (Typ record = TypeInt -> (forall v, Value record <> VInt v) ->
   Encode record w = (w, Returns (Some (ErrExpected "int"))))
  /\ (Typ record = TypeString -> (forall s, Value record <> VString s) ->
      Encode record w = (w, Returns (Some (ErrExpected "string"))))
  /\ (Typ record = TypeDouble -> (forall f, Value record <> VFloat64 f) ->
      Encode record w = (w, Returns (Some (ErrExpected "float64")))).
Proof.
  unfold Encode. repeat split; intros Ht Hv; rewrite Ht;
    cbn [Z.eqb TypeInt TypeString TypeDouble];
    destruct (Value record) as [s|v|f|l|]; try reflexivity;
    exfalso; eapply Hv; reflexivity.
Qed.

Lemma encode_type_mismatch_witness :
  let record := mkRecord 0 TypeInt (VString "7") in
  Typ record = TypeInt
  /\ (forall v, Value record <> VInt v)
  /\ Encode record ([] : list (list Z))
     = ([], Returns (Some (ErrExpected "int"))).
Proof.
  intros record.
  assert (Ht : Typ record = TypeInt) by reflexivity.
  assert (Hv : forall v, Value record <> VInt v) by (intros v; discriminate).
  split; [exact Ht|]. split; [exact Hv|].
  exact (proj1 (encode_type_mismatch record []) Ht Hv).
Defined.

(** X2.  With a writer whose counts never exceed the slice it was given,
    [Encode] returns on every record, ill-typed ones included: it never
    panics. *)
Theorem encode_returns {W : Type} `{Writer W} (record : Record) (w : W) :
  (forall w0 p, fst (snd (Write w0 p)) <= len p) ->
  exists err, snd (Encode record w) = Returns err.
Proof.
  intros Hcount.
  destruct (payloadBytes record) as [err|value] eqn:Hp.
  - exists (Some err). now rewrite (Encode_refused record err w Hp).
  - specialize (Hcount w (frameBytes (Typ record) value)).
    destruct (Write w (frameBytes (Typ record) value)) as [w' [m e]] eqn:Hw.
    cbn [fst snd] in Hcount.
    rewrite (Encode_by_write record value w w' m e Hp Hw).
    destruct (takesShortcut record); [eexists; reflexivity|].
    destruct (Z.ltb_spec (len (frameBytes (Typ record) value)) m); [lia|].
    destruct e; [eexists; reflexivity|].
    destruct (m =? len (frameBytes (Typ record) value)); eexists; reflexivity.
Qed.

Lemma encode_returns_witness :
  (forall w0 p : list Z, fst (snd (Write w0 p)) <= len p)
  /\ exists err,
      snd (Encode (mkRecord 0 TypeString (VInt 5)) ([] : list Z))
      = Returns err.
Proof.
  assert (H : forall w0 p : list Z, fst (snd (Write w0 p)) <= len p)
    by (intros w0 p; unfold Write, BufferWriter; cbn [fst snd]; lia).
  split; [exact H|].
  exact (encode_returns (mkRecord 0 TypeString (VInt 5)) [] H).
Defined.

(** X3.  When the writer answers the [Write] of a record with an error
    and a count that does not exceed the slice, [Encode] returns that very
    error, and the writer is left as that [Write] left it; the shortcut of
    the Integer 0 returns the error whatever the count.  With a count above
    the slice [bytes.Buffer.WriteTo] panics before it looks at the
    error. *)
Theorem encode_writer_error {W : Type} `{Writer W} (record : Record)
  (value : list Z) (w w' : W) (m : Z) (err : error) :
  payloadBytes record = inr value ->
  Write w (frameBytes (Typ record) value) = (w', (m, Some err)) ->
  Encode record w
  = (w',
     if takesShortcut record || (m <=? len (frameBytes (Typ record) value))
     then Returns (Some err)
     else Panics "bytes.Buffer.WriteTo: invalid Write count").
Proof.
  intros Hp Hw. rewrite (Encode_by_write record value w w' m _ Hp Hw).
  destruct (takesShortcut record); [reflexivity|]. cbn [orb].
  destruct (Z.ltb_spec (len (frameBytes (Typ record) value)) m);
    destruct (Z.leb_spec m (len (frameBytes (Typ record) value)));
    try lia; reflexivity.
Qed.

Lemma encode_writer_error_witness :
  let record := mkRecord 0 TypeString (VString "a") in
  let value := bytes_of_string "a" ++ [0] in
  payloadBytes record = inr value
  /\ Write closedPipe (frameBytes (Typ record) value)
     = (closedPipe, (0, Some (ErrIO "closed pipe")))
  /\ Encode record closedPipe
     = (closedPipe, Returns (Some (ErrIO "closed pipe")))
  /\ Write overcount (frameBytes (Typ record) value)
     = (overcount, (4, Some (ErrIO "overcount")))
  /\ Encode record overcount
     = (overcount, Panics "bytes.Buffer.WriteTo: invalid Write count").
Proof.
  intros record value.
  assert (Hp : payloadBytes record = inr value) by reflexivity.
  assert (Hw : Write closedPipe (frameBytes (Typ record) value)
               = (closedPipe, (0, Some (ErrIO "closed pipe"))))
    by reflexivity.
  assert (Ho : Write overcount (frameBytes (Typ record) value)
               = (overcount, (4, Some (ErrIO "overcount"))))
    by reflexivity.
  split; [exact Hp|]. split; [exact Hw|]. split.
  - exact (encode_writer_error record value closedPipe closedPipe 0
             (ErrIO "closed pipe") Hp Hw).
  - split; [exact Ho|].
    exact (encode_writer_error record value overcount overcount 4
             (ErrIO "overcount") Hp Ho).
Defined.

(** X4.  When the writer takes fewer bytes than the record has and reports
    no error, [Encode] returns [io.ErrShortWrite]; the one exception is
    the Integer 0, whose shortcut drops the count and returns nil. *)
Theorem encode_short_write {W : Type} `{Writer W} (record : Record)
  (value : list Z) (w w' : W) (m : Z) :
  payloadBytes record = inr value ->
  Write w (frameBytes (Typ record) value) = (w', (m, None)) ->
  m < len (frameBytes (Typ record) value) ->
  Encode record w
  = (w', Returns (if takesShortcut record then None else Some ErrShortWrite)).
Proof.
  intros Hp Hw Hm. rewrite (Encode_by_write record value w w' m _ Hp Hw).
  destruct (takesShortcut record); [reflexivity|].
  destruct (Z.ltb_spec (len (frameBytes (Typ record) value)) m); [lia|].
  destruct (Z.eqb_spec m (len (frameBytes (Typ record) value))); [lia|].
  reflexivity.
Qed.

Lemma encode_short_write_witness :
  Encode (mkRecord 0 TypeInt (VInt 7)) stalled
  = (stalled, Returns (Some ErrShortWrite))
  /\ Encode (mkRecord 0 TypeInt (VInt 0)) stalled = (stalled, Returns None).
Proof.
  split.
  - exact (encode_short_write (mkRecord 0 TypeInt (VInt 7)) [7]
             stalled stalled 0 eq_refl eq_refl
             (proj1 (Z.ltb_lt 0 2) eq_refl)).
  - exact (encode_short_write (mkRecord 0 TypeInt (VInt 0)) []
             stalled stalled 0 eq_refl eq_refl
             (proj1 (Z.ltb_lt 0 1) eq_refl)).
Defined.

(** X5.  [Encode] hands the writer a record in one [Write] that carries
    header, length bytes and payload together, and hands it nothing when
    it refuses the record: a log of the calls grows by that one slice, or
    not at all. *)
Theorem encode_one_write (record : Record) (log : list (list Z)) :
  match payloadBytes record with
  | inr value =>
      Encode record log
      = (log ++ [frameBytes (Typ record) value], Returns None)
  | inl err => Encode record log = (log, Returns (Some err))
  end.
Proof.
  destruct (payloadBytes record) as [err|value] eqn:Hp.
  - exact (Encode_refused record err log Hp).
  - rewrite (Encode_by_write record value log
               (log ++ [frameBytes (Typ record) value])
               (len (frameBytes (Typ record) value)) None Hp eq_refl).
    rewrite Z.ltb_irrefl, Z.eqb_refl.
    destruct (takesShortcut record); reflexivity.
Qed.

(** X6.  [Encode] into a [bytes.Buffer] appends: what the buffer held
    stays in front, followed by the bytes the record takes in an empty
    buffer, with the same result; so two records encoded one after the
    other leave the two encodings side by side. *)
Theorem encode_appends (record next : Record) (w : list Z) :
  Encode record w = (w ++ fst (EncodeBytes record), snd (EncodeBytes record))
  /\ fst (Encode next (fst (Encode record w)))
     = w ++ fst (EncodeBytes record) ++ fst (EncodeBytes next).
Proof.
  assert (Happ : forall r w0,
             Encode r w0 = (w0 ++ fst (EncodeBytes r), snd (EncodeBytes r))).
  { intros r w0. rewrite EncodeBytes_payload.
    destruct (payloadBytes r) as [err|value] eqn:Hp; cbn [fst snd].
    - rewrite app_nil_r. exact (Encode_refused r err w0 Hp).
    - rewrite (Encode_by_write r value w0 (w0 ++ frameBytes (Typ r) value)
                 (len (frameBytes (Typ r) value)) None Hp eq_refl).
      rewrite Z.ltb_irrefl, Z.eqb_refl.
      destruct (takesShortcut r); reflexivity. }
  split; [apply Happ|].
  rewrite (Happ record w). cbn [fst]. rewrite (Happ next). cbn [fst].
  now rewrite app_assoc.
Qed.

(** X7.  Into a [bytes.Buffer], [Encode] returns nil exactly for the
    records whose [Value] has the dynamic type the tag announces and whose
    tag is not Struct. *)
Theorem encode_succeeds_iff (record : Record) :
  snd (EncodeBytes record) = Returns None
  <-> dynamicTag (Value record) = Some (Typ record)
      /\ Typ record <> TypeStruct.
Proof.
  rewrite EncodeBytes_payload. unfold payloadBytes. tag_cases record.
  all: repeat match goal with
         | H : (Typ _ =? _) = true |- _ =>
             apply Z.eqb_eq in H; rewrite H in *; clear H
         end.
  all: rewrite ?Hs, ?Hi, ?Hd, ?Hst; cbn.
  all: try (destruct (Value record); cbn).
  all: split.
  all: try (intros Hr;
            first [discriminate | split; [reflexivity | discriminate]]).
  all: intros [Hdyn Hn];
    first [ discriminate | reflexivity | exfalso; apply Hn; reflexivity
          | inversion Hdyn as [Hty]; rewrite <- Hty in *; discriminate ].
Qed.

(* ================================================================== *)
(** ** Panics, and [Scan] beside the accessors *)

Section ScanBehaviour.

Variable ParseFloat64 : string -> float * option error.

(** Through a pointer that is not nil, or on an argument that is no
    pointer of the four types, [Scan] panics exactly when the target has a
    conversion for the tag of the record and the [Value] of the record is
    not of the dynamic type that tag announces. *)
Lemma Scan_panics_valid (record : Record) (dest : Dest) :
  (exists msg, snd (Scan ParseFloat64 record dest) = Panics msg)
  <-> converts dest (Typ record) = true
      /\ dynamicTag (Value record) <> Some (Typ record).
Proof.
  unfold Scan, assertionPanic, converts. tag_cases record.
  all: repeat match goal with
         | H : (Typ _ =? _) = true |- _ =>
             apply Z.eqb_eq in H; rewrite H in *; clear H
         end.
  all: destruct dest; cbn.
  all: try (destruct (Value record) as [s|n|f|l|]; cbn).
  all: repeat match goal with
         | |- context [match strconv.Atoi ?s with _ => _ end] =>
             destruct (strconv.Atoi s) as [? [?|]]
         | |- context [match ParseFloat64 ?s with _ => _ end] =>
             destruct (ParseFloat64 s) as [? [?|]]
         end; cbn.
  all: rewrite ?Hs, ?Hi, ?Hd, ?Hst; cbn.
  all: split.
  all: try (intros [msg Hm]; try discriminate;
            split; [reflexivity | discriminate]).
  all: try (intros [Hc Hd']; try discriminate;
            try (exfalso; apply Hd'; reflexivity);
            try (eexists; reflexivity)).
Qed.

(** On a nil pointer [Scan] panics in one more case: whenever it comes to
    the store, that is unless a parse fails first. *)
Lemma ScanNil_panics_iff (record : Record) (kind : PtrKind) :
  (exists msg, ScanNil ParseFloat64 record kind = Panics msg)
  <-> converts (zeroDest kind) (Typ record) = true
      /\ (dynamicTag (Value record) <> Some (Typ record)
          \/ parseFails ParseFloat64 record (NilPointer kind) = false).
Proof.
  unfold ScanNil, converts, parseFails, zeroDest. tag_cases record.
  all: repeat match goal with
         | H : (Typ _ =? _) = true |- _ =>
             apply Z.eqb_eq in H; rewrite H in *; clear H
         end.
  all: rewrite ?Hs, ?Hi, ?Hd, ?Hst.
  all: destruct kind; cbn.
  all: try (destruct (Value record) as [s|n|f|l|]; cbn).
  all: repeat match goal with
         | |- context [strconv.Atoi ?s] =>
             destruct (strconv.Atoi s) as [? [?|]]
         | |- context [ParseFloat64 ?s] =>
             destruct (ParseFloat64 s) as [? [?|]]
         end; cbn.
  all: split.
  all: try (intros [msg Hm];
            first [ discriminate
                  | split; [reflexivity|];
                    first [left; discriminate | right; reflexivity] ]).
  all: try (intros [Hc Hor];
            first [ discriminate | eexists; reflexivity
                  | destruct Hor as [Hd'|Hp];
                    [exfalso; apply Hd'; reflexivity | discriminate] ]).
Qed.

(** X8.  On every argument, typed nil pointers included, [Scan] panics
    exactly when the argument has a conversion for the tag of the record
    and either the [Value] of the record is not of the dynamic type that
    tag announces (the type assertion panics) or the argument is a nil
    pointer and no parse fails before the store (the store through nil
    panics); in every other case it returns. *)
Theorem scan_panics_iff (record : Record) (arg : DestArg) :
  (exists msg, snd (ScanArg ParseFloat64 record arg) = Panics msg)
  <-> argConverts arg (Typ record) = true
      /\ (dynamicTag (Value record) <> Some (Typ record)
          \/ (isNil arg = true
              /\ parseFails ParseFloat64 record arg = false)).
Proof.
  destruct arg as [dest|kind]; cbn [ScanArg argConverts isNil].
  - pose proof (Scan_panics_valid record dest) as Hvalid.
    destruct (Scan ParseFloat64 record dest) as [[record' dest'] outcome].
    cbn [snd] in *. rewrite Hvalid. split.
    + intros [Hc Hd]. split; [exact Hc | left; exact Hd].
    + intros [Hc [Hd | [Hnil _]]]; [split; assumption | discriminate].
  - cbn [snd]. rewrite ScanNil_panics_iff. split.
    + intros [Hc [Hd | Hp]]; (split; [exact Hc|]);
        [left; exact Hd | right; split; [reflexivity | exact Hp]].
    + intros [Hc [Hd | [_ Hp]]]; (split; [exact Hc|]);
        [left; exact Hd | right; exact Hp].
Qed.

(** A nil pointer of each behaviour: the store panics for an Integer read
    as int, a failed parse returns its error first, a Struct is refused as
    text without a panic. *)
Example scan_nil_samples :
  snd (ScanArg ParseFloat64 (mkRecord 1 TypeInt (VInt 42)) (NilPointer KInt))
  = Panics nilDereference
  /\ snd (ScanArg ParseFloat64 (mkRecord 4 TypeString (VString "12a"))
            (NilPointer KInt))
     = Returns (Some (NumError "Atoi" "12a" ErrSyntax))
  /\ snd (ScanArg ParseFloat64 (mkRecord 0 TypeStruct (VStructItems []))
            (NilPointer KString))
     = Returns (Some (ErrConvert TypeStruct "string")).
Proof. repeat split. Qed.

(** X10.  Whenever a strict accessor returns a value without error, [Scan]
    into a pointer of the accessor's type stores that same value and
    returns nil; [Scan] into a struct-item slice succeeds exactly when
    [StructItems] does, and fails exactly when it fails. *)
Theorem scan_agrees_with_accessors (record : Record) :
  (forall s p, snd (Accessors.String record) = Returns (s, None) ->
     Scan ParseFloat64 record (PtrString p)
     = ((record, PtrString s), Returns None))
  /\ (forall n p, snd (Accessors.Int record) = Returns (n, None) ->
       Scan ParseFloat64 record (PtrInt p)
       = ((record, PtrInt n), Returns None))
  /\ (forall f p, snd (Accessors.Double record) = Returns (f, None) ->
       Scan ParseFloat64 record (PtrFloat64 p)
       = ((record, PtrFloat64 f), Returns None))
  /\ (forall l p, snd (Accessors.StructItems record) = Returns (l, None) <->
       Scan ParseFloat64 record (PtrStructItems p)
       = ((record, PtrStructItems l), Returns None))
  /\ (forall p, fails (snd (Accessors.StructItems record)) <->
       exists err, snd (Scan ParseFloat64 record (PtrStructItems p))
                   = Returns (Some err)).
Proof.
  unfold Accessors.String, Accessors.Int, Accessors.Double,
    Accessors.StructItems, Scan, assertionPanic, fails.
  repeat split.
  - intros s p. destruct (Typ record =? TypeString); cbn [negb snd];
      [|discriminate].
    destruct (Value record); intros Hr; inversion Hr. reflexivity.
  - intros n p. destruct (Z.eqb_spec (Typ record) TypeInt) as [->|];
      cbn [negb snd]; [|discriminate].
    cbn. destruct (Value record); intros Hr; inversion Hr. reflexivity.
  - intros f p. destruct (Z.eqb_spec (Typ record) TypeDouble) as [->|];
      cbn [negb snd]; [|discriminate].
    cbn. destruct (Value record); intros Hr; inversion Hr. reflexivity.
  - destruct (Typ record =? TypeStruct); cbn [negb snd]; [|discriminate].
    destruct (Value record); intros Hr; inversion Hr. reflexivity.
  - destruct (Typ record =? TypeStruct); cbn [negb snd]; [|discriminate].
    destruct (Value record); intros Hr; inversion Hr. reflexivity.
  - destruct (Typ record =? TypeStruct); cbn [negb snd].
    + destruct (Value record); intros (a & e & Hr); discriminate.
    + intros _. eexists. reflexivity.
  - destruct (Typ record =? TypeStruct); cbn [negb snd].
    + destruct (Value record); intros (e & Hr); discriminate.
    + intros _. eexists _, _. reflexivity.
Qed.

End ScanBehaviour.

Lemma scan_agrees_with_accessors_witness :
  let record := mkRecord 1 TypeInt (VInt 42) in
  snd (Accessors.Int record) = Returns (42, None)
  /\ Scan strconv.rejectFloat record (PtrInt 0)
     = ((record, PtrInt 42), Returns None).
Proof.
  intros record.
  assert (H : snd (Accessors.Int record) = Returns (42, None)) by reflexivity.
  split; [exact H|].
  exact (proj1 (proj2 (scan_agrees_with_accessors strconv.rejectFloat record))
           42 0 H).
Defined.

(** X9.  A strict accessor panics exactly when the tag of the record is
    the one it expects and the [Value] of the record is not of the dynamic
    type of that tag; on any other tag it returns its error. *)
Theorem accessor_panics_iff (record : Record) :
  ((exists msg, snd (Accessors.String record) = Panics msg)
   <-> Typ record = TypeString
       /\ dynamicTag (Value record) <> Some TypeString)
  /\ ((exists msg, snd (Accessors.Int record) = Panics msg)
      <-> Typ record = TypeInt /\ dynamicTag (Value record) <> Some TypeInt)
  /\ ((exists msg, snd (Accessors.Double record) = Panics msg)
      <-> Typ record = TypeDouble
          /\ dynamicTag (Value record) <> Some TypeDouble)
  /\ ((exists msg, snd (Accessors.StructItems record) = Panics msg)
      <-> Typ record = TypeStruct
          /\ dynamicTag (Value record) <> Some TypeStruct).
Proof.
  unfold Accessors.String, Accessors.Int, Accessors.Double,
    Accessors.StructItems.
  repeat apply conj.
  all: lazymatch goal with
       | |- (exists _, _) -> _ =>
           intros [msg Hm];
           match type of Hm with
           | context [Typ ?r =? ?t] =>
               destruct (Z.eqb_spec (Typ r) t) as [Ht|Ht]; cbn in Hm;
               [ split; [exact Ht|];
                 destruct (Value r); cbn in *; discriminate
               | discriminate ]
           end
       | |- _ /\ _ -> _ =>
           intros [Ht Hd]; rewrite Ht; cbn;
           match type of Hd with
           | context [Value ?r] =>
               destruct (Value r); cbn in *;
               try (eexists; reflexivity); exfalso; apply Hd; reflexivity
           end
       end.
Qed.

(* ================================================================== *)
(** ** Integers through text *)

Lemma of_uint_acc_ge (d : Decimal.uint) (a : positive) :
  (a <= Pos.of_uint_acc d a)%positive.
Proof.
  revert a. induction d; intros a; cbn [Pos.of_uint_acc];
    try (etransitivity; [|apply IHd]); lia.
Qed.

(** The digit loop on the digits of a numeral, from a positive
    accumulator: no overflow on the way when the result fits. *)
Lemma parseDigits_acc (d : Decimal.uint) (a : positive) :
  Z.pos (Pos.of_uint_acc d a) <= strconv.maxUint64 ->
  strconv.parseDigits (digitChars d) (Z.pos a)
  = (Z.pos (Pos.of_uint_acc d a), None).
Proof.
  unfold digitChars. revert a.
  induction d; intros a Hmax;
    cbn [NilEmpty.string_of_uint list_ascii_of_string strconv.parseDigits
         Pos.of_uint_acc] in *;
    [reflexivity|..];
    match goal with
    | |- context [strconv.digit ?c] =>
        let v := eval vm_compute in (strconv.digit c) in
        change (strconv.digit c) with v; cbv iota
    end;
    match goal with
    | H : Z.pos (Pos.of_uint_acc d ?b) <= _ |- _ =>
        pose proof (of_uint_acc_ge d b) as Hge;
        replace (Z.pos a * 10 + _) with (Z.pos b) by lia;
        destruct (Z.ltb_spec strconv.maxUint64 (Z.pos b)); [lia|];
        apply IHd; exact H
    end.
Qed.

Lemma parseDigits_zero (d : Decimal.uint) :
  Z.of_N (Pos.of_uint d) <= strconv.maxUint64 ->
  strconv.parseDigits (digitChars d) 0 = (Z.of_N (Pos.of_uint d), None).
Proof.
  unfold digitChars.
  induction d; intros Hmax;
    cbn [NilEmpty.string_of_uint list_ascii_of_string strconv.parseDigits
         Pos.of_uint] in *;
    [reflexivity|..];
    match goal with
    | |- context [strconv.digit ?c] =>
        let v := eval vm_compute in (strconv.digit c) in
        change (strconv.digit c) with v; cbv iota
    end;
    cbn [Z.mul Z.add Z.of_N Pos.mul Pos.add];
    [ apply IHd; exact Hmax | .. ];
    match goal with
    | |- context [strconv.maxUint64 <? ?k] =>
        change (strconv.maxUint64 <? k) with false; cbv iota
    end;
    apply (parseDigits_acc d); exact Hmax.
Qed.

Lemma digitChars_head (d : Decimal.uint) :
  d <> Decimal.Nil ->
  exists c rest,
    digitChars d = c :: rest /\ (charByte c =? 45) = false
    /\ (charByte c =? 43) = false.
Proof.
  unfold digitChars.
  destruct d; intros Hd; [contradiction|..];
    cbn [NilEmpty.string_of_uint list_ascii_of_string];
    eexists _, _; (split; [reflexivity|]); split; reflexivity.
Qed.

Lemma ParseUint_to_uint (p : positive) :
  Z.pos p <= strconv.maxUint64 ->
  strconv.ParseUint (digitChars (Pos.to_uint p)) = (Z.pos p, None).
Proof.
  intros Hmax.
  destruct (digitChars_head _ (DecimalPos.Unsigned.to_uint_nonnil p))
    as (c & rest & Hd & _ & _).
  unfold strconv.ParseUint. rewrite Hd, <- Hd.
  rewrite parseDigits_zero; rewrite DecimalPos.Unsigned.of_to;
    [reflexivity | exact Hmax].
Qed.

Lemma NilZero_to_uint (p : positive) :
  NilZero.string_of_uint (Pos.to_uint p)
  = NilEmpty.string_of_uint (Pos.to_uint p).
Proof.
  pose proof (DecimalPos.Unsigned.to_uint_nonnil p) as Hn.
  unfold NilZero.string_of_uint. destruct (Pos.to_uint p);
    [contradiction | reflexivity ..].
Qed.

(** [Atoi] reads back what [Itoa] prints for an [int]. *)
Lemma Atoi_Itoa (n : Z) :
  is_int n -> strconv.Atoi (strconv.Itoa n) = (n, None).
Proof.
  unfold is_int, int_min, int_max. intros Hn.
  unfold strconv.Atoi, strconv.Itoa.
  assert (Hparse : strconv.ParseInt (NilZero.string_of_int (Z.to_int n))
                   = (n, None)).
  { destruct n as [|p|p].
    - reflexivity.
    - cbn [Z.to_int NilZero.string_of_int]. rewrite NilZero_to_uint.
      destruct (digitChars_head _ (DecimalPos.Unsigned.to_uint_nonnil p))
        as (c & rest & Hd & Hminus & Hplus).
      unfold strconv.ParseInt. fold (digitChars (Pos.to_uint p)).
      rewrite Hd, Hminus, Hplus. cbn [orb]. rewrite <- Hd.
      rewrite ParseUint_to_uint by (unfold strconv.maxUint64; lia).
      cbn [negb andb].
      destruct (Z.leb_spec (2 ^ 63) (Z.pos p)); [lia | reflexivity].
    - cbn [Z.to_int NilZero.string_of_int]. rewrite NilZero_to_uint.
      unfold strconv.ParseInt. cbn [list_ascii_of_string].
      fold (digitChars (Pos.to_uint p)).
      change (charByte "-" =? 45) with true.
      change (charByte "-" =? 43) with false. cbn [orb].
      rewrite ParseUint_to_uint by (unfold strconv.maxUint64; lia).
      cbn [negb andb].
      destruct (Z.ltb_spec (2 ^ 63) (Z.pos p)); [lia | reflexivity]. }
  rewrite Hparse. reflexivity.
Qed.

Lemma digit_range (c : ascii) (d : Z) :
  strconv.digit c = Some d -> 0 <= d <= 9.
Proof.
  unfold strconv.digit.
  destruct (Z.leb_spec 48 (charByte c)); cbn [andb]; [|discriminate].
  destruct (Z.leb_spec (charByte c) 57); [|discriminate].
  intros Heq; inversion Heq. lia.
Qed.

Lemma parseDigits_nonneg (cs : list ascii) (n r : Z) :
  0 <= n -> strconv.parseDigits cs n = (r, None) -> 0 <= r.
Proof.
  revert n. induction cs as [|c cs IH]; intros n Hn; cbn [strconv.parseDigits].
  - intros Heq; inversion Heq; lia.
  - destruct (strconv.digit c) as [d|] eqn:Hd; [|discriminate].
    apply digit_range in Hd.
    destruct (strconv.maxUint64 <? n * 10 + d); [discriminate|].
    apply IH. lia.
Qed.

Lemma parseDigits_overflow (cs : list ascii) (n r : Z) :
  strconv.parseDigits cs n = (r, Some ErrRange) -> r = strconv.maxUint64.
Proof.
  revert n. induction cs as [|c cs IH]; intros n; cbn [strconv.parseDigits].
  - discriminate.
  - destruct (strconv.digit c) as [d|]; [|discriminate].
    destruct (strconv.maxUint64 <? n * 10 + d).
    + intros Heq; inversion Heq; reflexivity.
    + apply IH.
Qed.

(** What [Atoi] accepts is an [int]. *)
Lemma Atoi_range (s : string) (n : Z) :
  strconv.Atoi s = (n, None) -> is_int n.
Proof.
  unfold strconv.Atoi, strconv.ParseInt.
  destruct (list_ascii_of_string s) as [|c rest]; [discriminate|].
  cbv zeta.
  set (body := if (charByte c =? 43) || (charByte c =? 45) then rest
               else c :: rest).
  destruct (strconv.ParseUint body) as [un [[|]|]] eqn:Hu.
  - discriminate.
  - assert (Hmax : un = strconv.maxUint64).
    { unfold strconv.ParseUint in Hu. destruct body; [discriminate|].
      exact (parseDigits_overflow _ _ _ Hu). }
    subst un. destruct (charByte c =? 45); discriminate.
  - assert (H0 : 0 <= un).
    { unfold strconv.ParseUint in Hu. destruct body; [discriminate|].
      eapply parseDigits_nonneg; [|exact Hu]. lia. }
    unfold is_int, int_min, int_max.
    destruct (charByte c =? 45); cbn [negb andb].
    + destruct (Z.ltb_spec (2 ^ 63) un); [discriminate|].
      intros Heq; inversion Heq. lia.
    + destruct (Z.leb_spec (2 ^ 63) un); [discriminate|].
      intros Heq; inversion Heq. lia.
Qed.

Lemma digitsValue_ge (cs : list ascii) (n v : Z) :
  0 <= n -> digitsValue cs n = Some v -> n <= v.
Proof.
  revert n. induction cs as [|c cs IH]; intros n Hn; cbn [digitsValue].
  - intros Heq; inversion Heq; lia.
  - destruct (strconv.digit c) as [d|] eqn:Hd; [|discriminate].
    apply digit_range in Hd. intros Hv. apply IH in Hv; lia.
Qed.

(** The digit loop on a run of digits: their value when it fits uint64,
    the range error otherwise. *)
Lemma parseDigits_value (cs : list ascii) (n v : Z) :
  0 <= n <= strconv.maxUint64 -> digitsValue cs n = Some v ->
  strconv.parseDigits cs n
  = if v <=? strconv.maxUint64 then (v, None)
    else (strconv.maxUint64, Some ErrRange).
Proof.
  revert n. induction cs as [|c cs IH]; intros n Hn;
    cbn [digitsValue strconv.parseDigits].
  - intros Heq; inversion Heq; subst v.
    destruct (Z.leb_spec n strconv.maxUint64); [reflexivity | lia].
  - destruct (strconv.digit c) as [d|] eqn:Hd; [|discriminate].
    apply digit_range in Hd. intros Hv.
    destruct (Z.ltb_spec strconv.maxUint64 (n * 10 + d)) as [Hover|Hfit].
    + apply digitsValue_ge in Hv; [|lia].
      destruct (Z.leb_spec v strconv.maxUint64); [lia | reflexivity].
    + apply IH; [lia | exact Hv].
Qed.

Lemma parseDigits_no_value (cs : list ascii) (n : Z) :
  digitsValue cs n = None ->
  exists r kind, strconv.parseDigits cs n = (r, Some kind).
Proof.
  revert n. induction cs as [|c cs IH]; intros n;
    cbn [digitsValue strconv.parseDigits].
  - discriminate.
  - destruct (strconv.digit c) as [d|]; [|eexists _, _; reflexivity].
    intros Hv. destruct (strconv.maxUint64 <? n * 10 + d);
      [eexists _, _; reflexivity | exact (IH _ Hv)].
Qed.

(** [ParseInt] on a numeral: its value when that is an [int], the range
    error and the nearest bound otherwise. *)
Lemma ParseInt_value (s : string) (v : Z) :
  decimalValue s = Some v ->
  strconv.ParseInt s
  = if is_intb v then (v, None)
    else (if v <? 0 then int_min else int_max, Some ErrRange).
Proof.
  unfold decimalValue, strconv.ParseInt.
  destruct (list_ascii_of_string s) as [|c rest]; [discriminate|].
  cbv zeta.
  set (body := if (charByte c =? 43) || (charByte c =? 45) then rest
               else c :: rest).
  destruct body as [|b bs] eqn:Hbody; [discriminate|].
  destruct (digitsValue (b :: bs) 0) as [u|] eqn:Hu; [|discriminate].
  intros Hv. inversion Hv as [Hv']. clear Hv.
  assert (H0 : 0 <= u) by (eapply digitsValue_ge; [|exact Hu]; lia).
  unfold strconv.ParseUint.
  rewrite (parseDigits_value _ 0 u) by
    (try exact Hu; unfold strconv.maxUint64; lia).
  unfold is_intb, int_min, int_max, strconv.maxUint64 in *.
  destruct (charByte c =? 45); cbn [negb andb];
    destruct (Z.leb_spec u (2 ^ 64 - 1)).
  - destruct (Z.ltb_spec (2 ^ 63) u);
      destruct (Z.leb_spec (- 2 ^ 63) (- u));
      destruct (Z.leb_spec (- u) (2 ^ 63 - 1));
      destruct (Z.ltb_spec (- u) 0); cbn [andb]; try lia; reflexivity.
  - destruct (Z.leb_spec (- 2 ^ 63) (- u));
      destruct (Z.ltb_spec (- u) 0); cbn [andb]; try lia; reflexivity.
  - destruct (Z.leb_spec (2 ^ 63) u);
      destruct (Z.leb_spec (- 2 ^ 63) u);
      destruct (Z.leb_spec u (2 ^ 63 - 1));
      destruct (Z.ltb_spec u 0); cbn [andb]; try lia; reflexivity.
  - destruct (Z.leb_spec (- 2 ^ 63) u);
      destruct (Z.leb_spec u (2 ^ 63 - 1));
      destruct (Z.ltb_spec u 0); cbn [andb]; try lia; reflexivity.
Qed.

Lemma ParseInt_no_value (s : string) :
  decimalValue s = None ->
  exists r kind, strconv.ParseInt s = (r, Some kind).
Proof.
  unfold decimalValue, strconv.ParseInt.
  destruct (list_ascii_of_string s) as [|c rest];
    [intros _; eexists _, _; reflexivity|].
  cbv zeta.
  set (body := if (charByte c =? 43) || (charByte c =? 45) then rest
               else c :: rest).
  destruct body as [|b bs] eqn:Hbody.
  - intros _. cbn. eexists _, _; reflexivity.
  - destruct (digitsValue (b :: bs) 0) as [u|] eqn:Hu; [discriminate|].
    intros _. unfold strconv.ParseUint.
    destruct (parseDigits_no_value _ _ Hu) as (r & kind & Hpd).
    rewrite Hpd. destruct kind.
    + eexists _, _; reflexivity.
    + apply parseDigits_overflow in Hpd. subst r.
      destruct (charByte c =? 45); eexists _, _; reflexivity.
Qed.

(** [Atoi] returns nil exactly on the numerals whose value is an [int],
    and then returns that value. *)
Lemma Atoi_ok_iff (s : string) (n : Z) :
  strconv.Atoi s = (n, None) <-> decimalValue s = Some n /\ is_int n.
Proof.
  unfold strconv.Atoi.
  destruct (decimalValue s) as [v|] eqn:Hv.
  - rewrite (ParseInt_value s v Hv). unfold is_intb, is_int.
    destruct (Z.leb_spec int_min v); destruct (Z.leb_spec v int_max);
      cbn [andb]; split;
      try (intros Heq; inversion Heq; subst; split; [reflexivity | lia]);
      try (intros [Heq Hr]; inversion Heq; subst; first [reflexivity | lia]);
      try discriminate.
  - destruct (ParseInt_no_value s Hv) as (r & kind & ->).
    split; [discriminate | intros [Heq _]; discriminate].
Qed.

Lemma Atoi_out_of_range (s : string) (v : Z) :
  decimalValue s = Some v -> ~ is_int v ->
  snd (strconv.Atoi s) = Some (NumError "Atoi" s ErrRange).
Proof.
  intros Hv Hr. unfold strconv.Atoi. rewrite (ParseInt_value s v Hv).
  unfold is_intb, is_int in *.
  destruct (Z.leb_spec int_min v); destruct (Z.leb_spec v int_max);
    cbn [andb]; try reflexivity. exfalso. apply Hr. lia.
Qed.

Section ScanIntegers.

Variable ParseFloat64 : string -> float * option error.

(** X11.  An [int] read by [Scan] from an Integer record into a string,
    and read by [Scan] from a String record holding that string into an
    int, is the [int] the Integer record held. *)
Theorem scan_int_text_roundtrip (sz sz' n : Z) (p : string) (q : Z) :
  is_int n ->
  exists s,
    Scan ParseFloat64 (mkRecord sz TypeInt (VInt n)) (PtrString p)
    = ((mkRecord sz TypeInt (VInt n), PtrString s), Returns None)
    /\ Scan ParseFloat64 (mkRecord sz' TypeString (VString s)) (PtrInt q)
       = ((mkRecord sz' TypeString (VString s), PtrInt n), Returns None).
Proof.
  intros Hn. exists (strconv.Itoa n). split; [reflexivity|].
  unfold Scan. cbn [Typ Value]. change (TypeString =? TypeString) with true.
  cbv iota. now rewrite (Atoi_Itoa n Hn).
Qed.

(** X12.  For a String record holding [s], [Scan] into an int stores [n]
    and returns nil exactly when [s] is a decimal numeral (one optional
    sign, then digits only) whose value is [n] and [n] is within the range
    of [int]; a numeral whose value is out of that range gets the range
    error of [Atoi] and the pointee stays as it was: it is refused, never
    wrapped. *)
Theorem scan_int_in_range (record : Record) (s : string) (q : Z) :
  Typ record = TypeString -> Value record = VString s ->
  (forall n,
      Scan ParseFloat64 record (PtrInt q) = ((record, PtrInt n), Returns None)
      <-> decimalValue s = Some n /\ is_int n)
  /\ (forall v,
        decimalValue s = Some v -> ~ is_int v ->
        Scan ParseFloat64 record (PtrInt q)
        = ((record, PtrInt q),
           Returns (Some (NumError "Atoi" s ErrRange)))).
Proof.
  intros Ht Hval. unfold Scan. rewrite Ht, Hval.
  change (TypeString =? TypeString) with true. cbv iota. split.
  - intros n. rewrite <- Atoi_ok_iff.
    destruct (strconv.Atoi s) as [m [e|]]; split; intros Heq;
      try discriminate; inversion Heq; reflexivity.
  - intros v Hv Hr. pose proof (Atoi_out_of_range s v Hv Hr) as Herr.
    destruct (strconv.Atoi s) as [m [e|]]; cbn [snd] in Herr;
      [inversion Herr; reflexivity | discriminate].
Qed.

End ScanIntegers.

Lemma scan_int_text_roundtrip_witness :
  is_int (-42)
  /\ exists s,
      Scan strconv.rejectFloat (mkRecord 1 TypeInt (VInt (-42))) (PtrString "")
      = ((mkRecord 1 TypeInt (VInt (-42)), PtrString s), Returns None)
      /\ Scan strconv.rejectFloat (mkRecord 4 TypeString (VString s)) (PtrInt 0)
         = ((mkRecord 4 TypeString (VString s), PtrInt (-42)), Returns None).
Proof.
  assert (H : is_int (-42)) by (unfold is_int, int_min, int_max; lia).
  split; [exact H|].
  exact (scan_int_text_roundtrip strconv.rejectFloat 1 4 (-42) "" 0 H).
Defined.

Lemma scan_int_in_range_witness :
  let record := mkRecord 4 TypeString (VString "9223372036854775808") in
  Typ record = TypeString
  /\ Value record = VString "9223372036854775808"
  /\ decimalValue "9223372036854775808" = Some 9223372036854775808
  /\ ~ is_int 9223372036854775808
  /\ Scan strconv.rejectFloat record (PtrInt 7)
     = ((record, PtrInt 7),
        Returns (Some (NumError "Atoi" "9223372036854775808" ErrRange))).
Proof.
  intros record.
  assert (Ht : Typ record = TypeString) by reflexivity.
  assert (Hval : Value record = VString "9223372036854775808")
    by reflexivity.
  assert (Hv : decimalValue "9223372036854775808"
               = Some 9223372036854775808) by reflexivity.
  assert (Hr : ~ is_int 9223372036854775808)
    by (unfold is_int, int_min, int_max; lia).
  split; [exact Ht|]. split; [exact Hval|]. split; [exact Hv|].
  split; [exact Hr|].
  exact (proj2 (scan_int_in_range strconv.rejectFloat record
                  "9223372036854775808" 7 Ht Hval)
           9223372036854775808 Hv Hr).
Defined.

(* ================================================================== *)
(** ** The example of the README *)

Lemma string_append_nil_r (s : string) : (s ++ "")%string = s.
Proof. induction s as [|c s IH]; cbn; [reflexivity | now rewrite IH]. Qed.

Lemma string_append_assoc (a b c : string) :
  ((a ++ b) ++ c)%string = (a ++ (b ++ c))%string.
Proof. induction a as [|x a IH]; cbn; [reflexivity | now rewrite IH]. Qed.

Lemma printItems_lines (items : list StructItem) (stdout : string) :
  Forall (fun item => well_typed (ItemValue item)) items ->
  printItems items stdout
  = ((stdout
      ++ fold_right String.append EmptyString (map statLine items))%string,
     Returns tt).
Proof.
  intros Hall. revert stdout.
  induction Hall as [|item items Hwt _ IH]; intros stdout.
  - cbn. now rewrite string_append_nil_r.
  - cbn [printItems map fold_right].
    assert (Hint : exists e,
               snd (Accessors.Int (ItemValue item))
               = Returns (if Typ (ItemValue item) =? TypeInt then
                            match Value (ItemValue item) with
                            | VInt n => n
                            | _ => 0
                            end
                          else 0, e)).
    { unfold Accessors.Int. unfold well_typed in Hwt.
      destruct (Z.eqb_spec (Typ (ItemValue item)) TypeInt) as [Ht|Ht]; cbn.
      - rewrite Ht in Hwt. cbn in Hwt. destruct Hwt as [n ->].
        eexists. reflexivity.
      - eexists. reflexivity. }
    destruct Hint as [e ->]. rewrite IH. unfold statLine.
    f_equal. now rewrite !string_append_assoc.
Qed.

(** X13.  The example of the README, from the reply on: when the first
    record is not tagged Struct it prints nothing and goes on, the error
    of [StructItems] being dropped; when it is a Struct whose items hold
    records of the data model, it prints one line per item, in the order
    of the items and with repeated keys kept, "key = value" for an Integer
    item and "key = 0" for any other. *)
Theorem example_prints_items (first : Record) (rest : list Record)
  (stdout : string) :
  (Typ first <> TypeStruct ->
   printStats (first :: rest) stdout = (stdout, Returns tt))
  /\ (forall items,
        Typ first = TypeStruct -> Value first = VStructItems items ->
        Forall (fun item => well_typed (ItemValue item)) items ->
        printStats (first :: rest) stdout
        = ((stdout
            ++ fold_right String.append EmptyString
                 (map statLine items))%string,
           Returns tt)).
Proof.
  unfold printStats, Accessors.StructItems. split.
  - intros Ht. apply Z.eqb_neq in Ht. rewrite Ht. reflexivity.
  - intros items Ht Hv Hall. rewrite Ht, Hv. cbn.
    now apply printItems_lines.
Qed.

Lemma example_prints_items_witness :
  let items :=
    [mkStructItem "kos" (mkRecord 1 TypeInt (VInt 42));
     mkStructItem "name" (mkRecord 2 TypeString (VString "x"));
     mkStructItem "kos" (mkRecord 1 TypeInt (VInt (-1)))] in
  let first := mkRecord 0 TypeStruct (VStructItems items) in
  Forall (fun item => well_typed (ItemValue item)) items
  /\ printStats [first] ""
     = ((""
         ++ fold_right String.append EmptyString (map statLine items))%string,
        Returns tt).
Proof.
  intros items first.
  assert (Hall : Forall (fun item => well_typed (ItemValue item)) items).
  { repeat constructor.
    - exists 42. reflexivity.
    - exists "x"%string. reflexivity.
    - exists (-1). reflexivity. }
  split; [exact Hall|].
  exact (proj2 (example_prints_items first [] "") items eq_refl eq_refl Hall).
Defined.
